(** * Paragraph block tool: a shallow embedding of [src/index.js]

    The class [Paragraph] is an Editor.js block tool.  It owns one DOM
    element, keeps a plain record [{text, alignment}] and answers the host's
    calls (constructor, render, save, validate, merge, onPaste, settings).

    The embedding follows the JavaScript text statement by statement:
    - JavaScript values are the scalars the record and the configuration
      hold ([undefined], [null], booleans, strings);
    - plain objects live in a store of objects addressed by references, so
      that "the same object" is "the same reference";
    - DOM elements live in a second store; an element is the record of the
      properties this class reads and writes.  Its [innerHTML] is what the
      getter returns, the serialisation of its content.  The document's
      parser and serialiser are not part of the repository: what an element
      reads back once markup has been written to it is given by the world
      ([reads_back]);
    - a method is a function from the world (the instance [this] and the two
      stores) to an outcome (normal completion or a thrown exception) and the
      world it leaves behind.

    The repository also ships a built bundle of the same class.  The two
    methods in which the bundle differs from [src/index.js] are embedded in
    the module [Dist]. *)

From stdpp Require Import gmap strings list fin_maps.
From Stdlib Require Import Ascii String.

Local Open Scope string_scope.

(** ** JavaScript values *)

Inductive value :=
  | VUndefined
  | VNull
  | VBool (b : bool)
  | VString (s : string).

#[global] Instance value_eq_dec : EqDecision value.
Proof. solve_decision. Defined.

(** A plain object: own properties by name.  Reading a property that is not
    there yields [undefined]. *)
Abbreviation obj := (gmap string value).
Abbreviation loc := positive.

Definition obj_get (o : obj) (k : string) : value := default VUndefined (o !! k).

(** ToBoolean *)
Definition to_boolean (v : value) : bool :=
  match v with
  | VUndefined | VNull => false
  | VBool b => b
  | VString s => negb (bool_decide (s = ""))
  end.

(** ToString *)
Definition to_string (v : value) : string :=
  match v with
  | VUndefined => "undefined"
  | VNull => "null"
  | VBool true => "true"
  | VBool false => "false"
  | VString s => s
  end.

(** [a || b] and [a && b] *)
Definition js_or (a b : value) : value := if to_boolean a then a else b.
Definition js_and (a b : value) : value := if to_boolean a then b else a.

(** [a === b] and [a !== b] on scalars *)
Definition strict_eq (a b : value) : bool := bool_decide (a = b).
Definition strict_ne (a b : value) : bool := negb (strict_eq a b).

(** [a + b] on the values above (undefined, null, booleans, strings; other
    values, such as symbols and objects, whose conversion can throw, are
    outside [value]).  When one operand is a string the result is the
    concatenation of the two operands converted by ToString.  The sum of two
    non-strings is a number, which the value type does not hold: [None]. *)
Definition js_add (a b : value) : option value :=
  match a, b with
  | VString _, _ | _, VString _ => Some (VString (to_string a ++ to_string b))
  | _, _ => None
  end.

(** [Array.prototype.includes] *)
Definition includes (l : list value) (v : value) : bool := bool_decide (v ∈ l).

(** ** Strings: [String.prototype.trim]

    A string is a sequence of code units below 256.  The white space and line
    terminator code units in that range are TAB, LF, VT, FF, CR, SPACE and
    NBSP. *)

Definition is_white_space (c : ascii) : bool :=
  bool_decide (nat_of_ascii c ∈ [9; 10; 11; 12; 13; 32; 160]).

Fixpoint trim_start (s : string) : string :=
  match s with
  | EmptyString => EmptyString
  | String c r => if is_white_space c then trim_start r else s
  end.

Fixpoint trim_end (s : string) : string :=
  match s with
  | EmptyString => EmptyString
  | String c r =>
      match trim_end r with
      | EmptyString => if is_white_space c then EmptyString else String c EmptyString
      | r' => String c r'
      end
  end.

Definition trim (s : string) : string := trim_end (trim_start s).

(** ** The DOM as this class uses it *)

Inductive exn :=
  | TypeError
  | SyntaxError
  | InvalidCharacterError
  | Unmodelled.

(** Event handlers this class registers. *)
Inductive handler :=
  | H_onKeyUp
  | H_settingsClick (index : nat) (elements : list loc).

Record element := Element {
  tagName : string;
  classList : list string;
  contentEditable : string;
  dataset : gmap string string;
  innerHTML : string;
  listeners : list (string * handler)
}.

(** An element with no class, no content and no listener. *)
Definition blank_element (tag : string) : element :=
  {| tagName := tag; classList := []; contentEditable := "inherit";
     dataset := ∅; innerHTML := "";
     listeners := [] |}.

(** ASCII upper case: the [tagName] of an HTML element is its name in upper
    case whatever case it was created with. *)
Definition ascii_upper (c : ascii) : ascii :=
  let n := nat_of_ascii c in
  if bool_decide (97 ≤ n ≤ 122)%nat then ascii_of_nat (n - 32) else c.

Fixpoint ascii_uppercase (s : string) : string :=
  match s with
  | EmptyString => EmptyString
  | String c r => String (ascii_upper c) (ascii_uppercase r)
  end.

(** Writing markup to [innerHTML] parses it into the element's content, and
    reading [innerHTML] serialises that content: [rb s] is what is read back
    after [s] was written.  Writing the empty string leaves no content, which
    reads back as the empty string.  (Every element this class writes markup
    to is a [DIV], so one function describes them all.) *)
Definition markup_after_write (rb : string → string) (s : string) : string :=
  if bool_decide (s = "") then "" else rb s.

(** *** DOMTokenList *)

Definition is_ascii_whitespace (c : ascii) : bool :=
  bool_decide (nat_of_ascii c ∈ [9; 10; 12; 13; 32]).

Fixpoint has_ascii_whitespace (s : string) : bool :=
  match s with
  | EmptyString => false
  | String c r => is_ascii_whitespace c || has_ascii_whitespace r
  end.

(** The check every DOMTokenList method makes on each token it is given. *)
Definition check_token (t : string) : option exn :=
  if bool_decide (t = "") then Some SyntaxError
  else if has_ascii_whitespace t then Some InvalidCharacterError
  else None.

Fixpoint check_tokens (ts : list string) : option exn :=
  match ts with
  | [] => None
  | t :: r => match check_token t with Some e => Some e | None => check_tokens r end
  end.

Definition token_append (cl : list string) (t : string) : list string :=
  if bool_decide (t ∈ cl) then cl else cl ++ [t].

Definition token_remove (cl : list string) (t : string) : list string :=
  filter (λ c, c ≠ t) cl.

Definition DOMTokenList_add (ts : list string) (cl : list string) : exn + list string :=
  match check_tokens ts with
  | Some e => inl e
  | None => inr (foldl token_append cl ts)
  end.

Definition DOMTokenList_remove (ts : list string) (cl : list string) : exn + list string :=
  match check_tokens ts with
  | Some e => inl e
  | None => inr (foldl token_remove cl ts)
  end.

(** [toggle(token, force)] with the second argument given. *)
Definition DOMTokenList_toggle (t : string) (force : bool) (cl : list string)
  : exn + list string :=
  match check_token t with
  | Some e => inl e
  | None => inr (if force then token_append cl t else token_remove cl t)
  end.

(** ** The host's capability object and the class constants *)

Record Styles := {
  styles_block : value;
  styles_settingsButton : value;
  styles_settingsButtonActive : value
}.

(** [api.i18n.t] is the host's translation function. *)
Record Api := {
  styles : Styles;
  i18n_t : value → value
}.

Record CSS := {
  block : value;
  wrapper : value;
  settingsWrapper : value;
  settingsButton : value;
  settingsButtonActive : value
}.

(** [static get DEFAULT_PLACEHOLDER] *)
Definition DEFAULT_PLACEHOLDER : value := VString "".

(** [static get ALIGNMENTS]: the properties in the order they are written,
    which is the order [Object.values] lists them in. *)
Definition ALIGNMENTS : list (string * value) :=
  [("left", VString "left"); ("center", VString "center"); ("right", VString "right")].

Definition Object_values (o : list (string * value)) : list value := o.*2.

Fixpoint assoc_get (o : list (string * value)) (k : string) : value :=
  match o with
  | [] => VUndefined
  | (k', v) :: r => if bool_decide (k' = k) then v else assoc_get r k
  end.

(** [static get DEFAULT_ALIGNMENT]: [Paragraph.ALIGNMENTS.left] *)
Definition DEFAULT_ALIGNMENT : value := assoc_get ALIGNMENTS "left".

Record Tune := { name : string; icon : string }.

(** The icon markup is written here with ['] where the source has the
    double quote. *)
Definition dquote_char (c : ascii) : ascii :=
  if bool_decide (c = "'"%char) then "034"%char else c.

Fixpoint dquotes (s : string) : string :=
  match s with
  | EmptyString => EmptyString
  | String c r => String (dquote_char c) (dquotes r)
  end.

(** [get settings] *)
Definition settings : list Tune :=
  [ {| name := "left";
       icon := dquotes "<svg width='16' height='11' viewBox='0 0 16 11' xmlns='http://www.w3.org/2000/svg' ><path d='M1.069 0H13.33a1.069 1.069 0 0 1 0 2.138H1.07a1.069 1.069 0 1 1 0-2.138zm0 4.275H9.03a1.069 1.069 0 1 1 0 2.137H1.07a1.069 1.069 0 1 1 0-2.137zm0 4.275h9.812a1.069 1.069 0 0 1 0 2.137H1.07a1.069 1.069 0 0 1 0-2.137z' /></svg>" |};
    {| name := "center";
       icon := dquotes "<svg width='16' height='11' viewBox='0 0 16 11' xmlns='http://www.w3.org/2000/svg' ><path d='M1.069 0H13.33a1.069 1.069 0 0 1 0 2.138H1.07a1.069 1.069 0 1 1 0-2.138zm3.15 4.275h5.962a1.069 1.069 0 0 1 0 2.137H4.22a1.069 1.069 0 1 1 0-2.137zM1.069 8.55H13.33a1.069 1.069 0 0 1 0 2.137H1.07a1.069 1.069 0 0 1 0-2.137z'/></svg>" |};
    {| name := "right";
       icon := dquotes "<svg width='16' height='11' viewBox='0 0 16 11' xmlns='http://www.w3.org/2000/svg' ><path d='M1.069 0H13.33a1.069 1.069 0 0 1 0 2.138H1.07a1.069 1.069 0 1 1 0-2.138zm0 4.275H9.03a1.069 1.069 0 1 1 0 2.137H1.07a1.069 1.069 0 1 1 0-2.137zm0 4.275h9.812a1.069 1.069 0 0 1 0 2.137H1.07a1.069 1.069 0 0 1 0-2.137z' transform='scale(-1,1) translate(-16,0)' /></svg>" |} ].

(** ** The world: the instance and the two stores *)

(** The instance properties.  Each is [undefined] until the constructor
    assigns it ([None] for the ones that hold an object or a reference). *)
Record instance := Instance {
  api : option Api;
  _CSS : option CSS;
  _placeholder : value;
  _data : option loc;
  _element : option loc;
  _preserveBlank : value
}.

(** [reads_back] is the document's parse-then-serialise: the markup an
    element reads back after a string was written to its [innerHTML]. *)
Record world := World {
  this : instance;
  objs : gmap loc (gmap string value);
  elems : gmap loc element;
  reads_back : string → string
}.

(** ** Outcomes and the method monad *)

Inductive outcome (A : Type) :=
  | Normal (a : A)
  | Throw (e : exn).
Arguments Normal {A} a.
Arguments Throw {A} e.

Definition M (A : Type) : Type := world → outcome A * world.

Definition ret {A} (a : A) : M A := λ w, (Normal a, w).
Definition throw {A} (e : exn) : M A := λ w, (Throw e, w).
Definition bind {A B} (m : M A) (k : A → M B) : M B :=
  λ w, match m w with
       | (Normal a, w') => k a w'
       | (Throw e, w') => (Throw e, w')
       end.
Definition gets {A} (f : world → A) : M A := λ w, (Normal (f w), w).
Definition modify (f : world → world) : M unit := λ w, (Normal tt, f w).

Notation "'let*' x ':=' m 'in' k" := (bind m (λ x, k))
  (at level 10, x pattern, m at level 100, k at level 200).
Notation "m ';;' k" := (bind m (λ _, k))
  (at level 100, k at level 200, right associativity).

(** [Array.prototype.forEach] with a callback that may throw. *)
Fixpoint forEach {A} (l : list A) (f : A → M unit) : M unit :=
  match l with
  | [] => ret tt
  | a :: r => f a ;; forEach r f
  end.

(** [forEach] with the callback's index argument. *)
Fixpoint forEach_from {A} (i : nat) (l : list A) (f : A → nat → M unit) : M unit :=
  match l with
  | [] => ret tt
  | a :: r => f a i ;; forEach_from (S i) r f
  end.

(** A property access through a reference that is [undefined] throws. *)
Definition deref {A} (o : option A) : M A :=
  match o with
  | Some a => ret a
  | None => throw TypeError
  end.

Definition set_this (f : instance → instance) : M unit :=
  modify (λ w, World (f (this w)) (objs w) (elems w) (reads_back w)).

(** *** Plain objects *)

(** An object literal: a new object at a reference not in use. *)
Definition new_object (o : obj) : M loc :=
  λ w, let l := fresh (dom (objs w)) in
       (Normal l, World (this w) (<[l := o]> (objs w)) (elems w) (reads_back w)).

Definition get_prop (l : loc) (k : string) : M value :=
  let* o := gets (λ w, objs w !! l) in
  let* o := deref o in
  ret (obj_get o k).

Definition set_prop (l : loc) (k : string) (v : value) : M unit :=
  let* o := gets (λ w, objs w !! l) in
  let* o := deref o in
  modify (λ w, World (this w) (<[l := <[k := v]> o]> (objs w)) (elems w) (reads_back w)).

(** [Object.assign(target, source)] where [source] is an object literal
    that is used for nothing else: every own property of [source] is written
    to [target], and [target] is returned. *)
Definition Object_assign (target : loc) (source : obj) : M loc :=
  let* o := gets (λ w, objs w !! target) in
  let* o := deref o in
  modify (λ w, World (this w) (<[target := source ∪ o]> (objs w)) (elems w) (reads_back w)) ;;
  ret target.

(** *** Elements *)

(** [document.createElement(tag)] in an HTML document *)
Definition createElement (tag : string) : M loc :=
  λ w, let l := fresh (dom (elems w)) in
       (Normal l,
        World (this w) (objs w) (<[l := blank_element (ascii_uppercase tag)]> (elems w))
          (reads_back w)).

Definition get_element (l : loc) : M element :=
  let* e := gets (λ w, elems w !! l) in
  deref e.

Definition put_element (l : loc) (e : element) : M unit :=
  modify (λ w, World (this w) (objs w) (<[l := e]> (elems w)) (reads_back w)).

Definition with_classList (e : element) (cl : list string) : element :=
  {| tagName := tagName e; classList := cl; contentEditable := contentEditable e;
     dataset := dataset e; innerHTML := innerHTML e;
     listeners := listeners e |}.

Definition with_contentEditable (e : element) (s : string) : element :=
  {| tagName := tagName e; classList := classList e; contentEditable := s;
     dataset := dataset e; innerHTML := innerHTML e;
     listeners := listeners e |}.

Definition with_dataset (e : element) (d : gmap string string) : element :=
  {| tagName := tagName e; classList := classList e; contentEditable := contentEditable e;
     dataset := d; innerHTML := innerHTML e;
     listeners := listeners e |}.

Definition with_innerHTML (e : element) (s : string) : element :=
  {| tagName := tagName e; classList := classList e; contentEditable := contentEditable e;
     dataset := dataset e; innerHTML := s;
     listeners := listeners e |}.

Definition with_listeners (e : element) (ls : list (string * handler)) : element :=
  {| tagName := tagName e; classList := classList e; contentEditable := contentEditable e;
     dataset := dataset e; innerHTML := innerHTML e;
     listeners := ls |}.

Definition lift_tokens (l : loc) (e : element) (r : exn + list string) : M unit :=
  match r with
  | inl x => throw x
  | inr cl => put_element l (with_classList e cl)
  end.

(** [el.classList.add(...tokens)] *)
Definition classList_add (l : loc) (ts : list string) : M unit :=
  let* e := get_element l in
  lift_tokens l e (DOMTokenList_add ts (classList e)).

(** [el.classList.remove(...tokens)] *)
Definition classList_remove (l : loc) (ts : list string) : M unit :=
  let* e := get_element l in
  lift_tokens l e (DOMTokenList_remove ts (classList e)).

(** [el.classList.toggle(token, force)] *)
Definition classList_toggle (l : loc) (t : string) (force : bool) : M unit :=
  let* e := get_element l in
  lift_tokens l e (DOMTokenList_toggle t force (classList e)).

(** [el.innerHTML]: the serialisation of the element's content *)
Definition get_innerHTML (l : loc) : M string :=
  let* e := get_element l in
  ret (innerHTML e).

(** [el.innerHTML = v]: the string is parsed into the element's content *)
Definition set_innerHTML (l : loc) (v : value) : M unit :=
  let* e := get_element l in
  let* rb := gets reads_back in
  put_element l (with_innerHTML e (markup_after_write rb (to_string v))).

(** [el.contentEditable = v] *)
Definition set_contentEditable (l : loc) (v : value) : M unit :=
  let* e := get_element l in
  put_element l (with_contentEditable e (to_string v)).

(** [el.dataset[k] = v] *)
Definition set_dataset (l : loc) (k : string) (v : value) : M unit :=
  let* e := get_element l in
  put_element l (with_dataset e (<[k := to_string v]> (dataset e))).

(** [el.addEventListener(type, h)] *)
Definition addEventListener (l : loc) (type : string) (h : handler) : M unit :=
  let* e := get_element l in
  put_element l (with_listeners e (listeners e ++ [(type, h)])).

(** ** The class [Paragraph] *)

Definition with_api (a : Api) (p : instance) : instance :=
  {| api := Some a; _CSS := _CSS p; _placeholder := _placeholder p;
     _data := _data p; _element := _element p; _preserveBlank := _preserveBlank p |}.

Definition with_CSS (c : CSS) (p : instance) : instance :=
  {| api := api p; _CSS := Some c; _placeholder := _placeholder p;
     _data := _data p; _element := _element p; _preserveBlank := _preserveBlank p |}.

Definition with_placeholder (v : value) (p : instance) : instance :=
  {| api := api p; _CSS := _CSS p; _placeholder := v;
     _data := _data p; _element := _element p; _preserveBlank := _preserveBlank p |}.

Definition with_data (d : loc) (p : instance) : instance :=
  {| api := api p; _CSS := _CSS p; _placeholder := _placeholder p;
     _data := Some d; _element := _element p; _preserveBlank := _preserveBlank p |}.

Definition with_element (e : loc) (p : instance) : instance :=
  {| api := api p; _CSS := _CSS p; _placeholder := _placeholder p;
     _data := _data p; _element := Some e; _preserveBlank := _preserveBlank p |}.

Definition with_preserveBlank (v : value) (p : instance) : instance :=
  {| api := api p; _CSS := _CSS p; _placeholder := _placeholder p;
     _data := _data p; _element := _element p; _preserveBlank := v |}.

(** The object [new] hands to the constructor: no own property yet. *)
Definition blank_instance : instance :=
  {| api := None; _CSS := None; _placeholder := VUndefined;
     _data := None; _element := None; _preserveBlank := VUndefined |}.

(** [this.wrapper]: neither the class nor its constructor defines a property
    of this name, so the read yields [undefined]. *)
Definition this_wrapper : M (option loc) := ret None.

(** [get data()] *)
Definition get_data : M loc :=
  let* e := gets (λ w, _element (this w)) in
  let* e := deref e in
  let* text := get_innerHTML e in
  let* d := gets (λ w, _data (this w)) in
  let* d := deref d in
  set_prop d "text" (VString text) ;;
  ret d.

(** [set data(data)]: the argument is an object, or [null]/[undefined]
    ([None]). *)
Definition set_data (data : option loc) : M unit :=
  let* d := match data with
            | Some l => ret l
            | None => new_object ∅
            end in
  set_this (with_data d) ;;
  let* e := gets (λ w, _element (this w)) in
  let* text := get_prop d "text" in
  let* e := deref e in
  set_innerHTML e (js_or text (VString "")).

(** [drawView()] *)
Definition drawView : M loc :=
  let* div := createElement "DIV" in
  let* css := gets (λ w, _CSS (this w)) in
  let* css := deref css in
  classList_add div [to_string (wrapper css); to_string (block css)] ;;
  set_contentEditable div (VBool true) ;;
  let* a := gets (λ w, api (this w)) in
  let* a := deref a in
  let* p := gets (λ w, _placeholder (this w)) in
  set_dataset div "placeholder" (i18n_t a p) ;;
  addEventListener div "keyup" H_onKeyUp ;;
  ret div.

(** The value the constructor gives the [alignment] property. *)
Definition resolve_alignment (data config : obj) : value :=
  js_or
    (js_or
       (js_and (VBool (includes (Object_values ALIGNMENTS) (obj_get data "alignment")))
               (obj_get data "alignment"))
       (obj_get config "defaultAlignment"))
    DEFAULT_ALIGNMENT.

(** [constructor({ data, config, api })] *)
Definition constructor (data config : obj) (a : Api) : M unit :=
  set_this (with_api a) ;;
  let* a := gets (λ w, api (this w)) in
  let* a := deref a in
  set_this (with_CSS
    {| block := styles_block (styles a);
       wrapper := VString "ce-paragraph";
       settingsWrapper := VString "cdx-paragraph-settings";
       settingsButton := styles_settingsButton (styles a);
       settingsButtonActive := styles_settingsButtonActive (styles a) |}) ;;
  set_this (with_placeholder
    (if to_boolean (obj_get config "placeholder")
     then obj_get config "placeholder"
     else DEFAULT_PLACEHOLDER)) ;;
  let* d0 := new_object ∅ in
  set_this (with_data d0) ;;
  let* el := drawView in
  set_this (with_element el) ;;
  set_this (with_preserveBlank
    (if strict_ne (obj_get config "preserveBlank") VUndefined
     then obj_get config "preserveBlank"
     else VBool false)) ;;
  let* lit := new_object
    (<["text" := js_or (obj_get data "text") (VString "")]>
       (<["alignment" := resolve_alignment data config]> ∅)) in
  set_data (Some lit).

(** [new Paragraph({ data, config, api })] in a host whose stores are
    [os] and [es] and whose document reads markup back by [rb]. *)
Definition new_Paragraph (data config : obj) (a : Api)
    (os : gmap loc (gmap string value)) (es : gmap loc element) (rb : string → string)
  : outcome unit * world :=
  constructor data config a (World blank_instance os es rb).

(** [render()] *)
Definition render : M (option loc) :=
  gets (λ w, _element (this w)).

(** [merge(data)] *)
Definition merge (data : obj) : M unit :=
  let* d := get_data in
  let* old := get_prop d "text" in
  let* sum := match js_add old (obj_get data "text") with
              | Some v => ret v
              | None => throw Unmodelled
              end in
  let newData : obj := <["text" := sum]> ∅ in
  let* d := get_data in
  let* r := Object_assign d newData in
  set_data (Some r).

(** [validate(savedData)] *)
Definition validate (savedData : obj) : M bool :=
  match obj_get savedData "text" with
  | VString text =>
      let* pb := gets (λ w, _preserveBlank (this w)) in
      if strict_eq (VString (trim text)) (VString "") && negb (to_boolean pb)
      then ret false
      else ret true
  | _ => throw TypeError
  end.

(** [save(toolsContent)] *)
Definition save (toolsContent : loc) : M loc :=
  let* d := get_data in
  let* html := get_innerHTML toolsContent in
  Object_assign d (<["text" := VString html]> ∅).

(** A paste event: [event.detail.data] is an element. *)
Record PasteEvent := { detail_data : loc }.

(** [onPaste(event)] *)
Definition onPaste (event : PasteEvent) : M unit :=
  let* html := get_innerHTML (detail_data event) in
  let data : obj := <["text" := VString html]> ∅ in
  let* d := get_data in
  let* r := Object_assign d data in
  set_data (Some r).

(** [_toggleTune(tune)] *)
Definition _toggleTune (tune : value) : M unit :=
  let* d := get_data in
  set_prop d "alignment" tune ;;
  forEach settings (λ tune,
    let* w := this_wrapper in
    let* w := deref w in
    let* d := get_data in
    let* flag := get_prop d (name tune) in
    classList_toggle w (name tune) (to_boolean flag)).

(** The [classList.toggle] call of the settings buttons: the button is
    marked active when its name is the current alignment. *)
Definition mark_active (el : loc) (tune_name : string) : M unit :=
  let* css := gets (λ w, _CSS (this w)) in
  let* css := deref css in
  let* d := get_data in
  let* a := get_prop d "alignment" in
  classList_toggle el (to_string (settingsButtonActive css))
    (strict_eq (VString tune_name) a).

(** The click listener [renderSettings] gives the button number [index];
    [elements] are the buttons.  (Of [renderSettings] only this listener is
    embedded: the panel itself is built through [appendChild], after which
    the panel's markup is the browser's serialisation of its buttons.) *)
Definition settings_click (index : nat) (elements : list loc) : M unit :=
  let* tune := deref (settings !! index) in
  _toggleTune (VString (name tune)) ;;
  forEach_from 0 elements (λ el i,
    let* tune := deref (settings !! i) in
    mark_active el (name tune)).

(** [onKeyUp(e)] and the dispatch of a registered listener.  The browser
    derives [el.textContent] from the element's content: it is a function of
    the markup, which the host's document provides. *)
Section KeyUp.

Variable textContent_of : string → string.

Definition get_textContent (l : loc) : M string :=
  let* e := get_element l in
  ret (textContent_of (innerHTML e)).

(** [code] is [e.code]. *)
Definition onKeyUp (code : value) : M unit :=
  if strict_ne code (VString "Backspace") && strict_ne code (VString "Delete")
  then ret tt
  else
    let* e := gets (λ w, _element (this w)) in
    let* e := deref e in
    let* textContent := get_textContent e in
    if strict_eq (VString textContent) (VString "")
    then set_innerHTML e (VString "")
    else ret tt.

(** The host runs a registered listener on an event with the given [code]. *)
Definition run_handler (h : handler) (code : value) : M unit :=
  match h with
  | H_onKeyUp => onKeyUp code
  | H_settingsClick index elements => settings_click index elements
  end.

End KeyUp.

(** ** The built bundle

    The bundle the repository ships has two methods that differ from
    [src/index.js]: [drawView] and [_toggleTune]. *)
Module Dist.

(** [drawView]: as in the source, and before [return] the statement
    [this._element.classList.add(this.data.alignment)]. *)
Definition drawView : M loc :=
  let* div := createElement "DIV" in
  let* css := gets (λ w, _CSS (this w)) in
  let* css := deref css in
  classList_add div [to_string (wrapper css); to_string (block css)] ;;
  set_contentEditable div (VBool true) ;;
  let* a := gets (λ w, api (this w)) in
  let* a := deref a in
  let* p := gets (λ w, _placeholder (this w)) in
  set_dataset div "placeholder" (i18n_t a p) ;;
  addEventListener div "keyup" H_onKeyUp ;;
  let* e := gets (λ w, _element (this w)) in
  let* e := deref e in
  let* d := get_data in
  let* al := get_prop d "alignment" in
  classList_add e [to_string al] ;;
  ret div.

(** [_toggleTune(tune)] *)
Definition _toggleTune (tune : value) : M unit :=
  let* d := get_data in
  set_prop d "alignment" tune ;;
  forEach settings (λ tune,
    let* e := gets (λ w, _element (this w)) in
    let* e := deref e in
    classList_remove e [name tune]) ;;
  let* e := gets (λ w, _element (this w)) in
  let* e := deref e in
  let* d := get_data in
  let* al := get_prop d "alignment" in
  classList_add e [to_string al].

(** The constructor is the source's, calling the bundle's [drawView]. *)
Definition constructor (data config : obj) (a : Api) : M unit :=
  set_this (with_api a) ;;
  let* a := gets (λ w, api (this w)) in
  let* a := deref a in
  set_this (with_CSS
    {| block := styles_block (styles a);
       wrapper := VString "ce-paragraph";
       settingsWrapper := VString "cdx-paragraph-settings";
       settingsButton := styles_settingsButton (styles a);
       settingsButtonActive := styles_settingsButtonActive (styles a) |}) ;;
  set_this (with_placeholder
    (if to_boolean (obj_get config "placeholder")
     then obj_get config "placeholder"
     else DEFAULT_PLACEHOLDER)) ;;
  let* d0 := new_object ∅ in
  set_this (with_data d0) ;;
  let* el := drawView in
  set_this (with_element el) ;;
  set_this (with_preserveBlank
    (if strict_ne (obj_get config "preserveBlank") VUndefined
     then obj_get config "preserveBlank"
     else VBool false)) ;;
  let* lit := new_object
    (<["text" := js_or (obj_get data "text") (VString "")]>
       (<["alignment" := resolve_alignment data config]> ∅)) in
  set_data (Some lit).

End Dist.

(** ** What the claims speak about *)

(** The three alignment names. *)
Definition alignment_names : list string := name <$> settings.

Definition is_alignment (v : value) : Prop :=
  v = VString "left" ∨ v = VString "center" ∨ v = VString "right".

(** The stored record: the object [this._data] refers to. *)
Definition stored_record (w : world) : option obj :=
  d ← _data (this w); objs w !! d.

(** A property of the stored record. *)
Definition stored (k : string) (w : world) : option value :=
  o ← stored_record w; Some (obj_get o k).

(** The owned element. *)
Definition owned_element (w : world) : option element :=
  e ← _element (this w); elems w !! e.

(** The alignment classes an element carries. *)
Definition alignment_classes_of (cl : list string) : list string :=
  filter (λ c, c ∈ alignment_names) cl.

Definition alignment_classes (e : element) : list string :=
  alignment_classes_of (classList e).

(** The instance is built: its record and its element are there. *)
Definition constructed (w : world) : Prop :=
  is_Some (stored_record w) ∧ is_Some (owned_element w).

(** A host api whose class names are usable tokens. *)
Definition test_api : Api :=
  {| styles := {| styles_block := VString "cdx-block";
                  styles_settingsButton := VString "cdx-settings-button";
                  styles_settingsButtonActive := VString "cdx-settings-button--active" |};
     i18n_t := λ v, v |}.

(** The alignment the record holds is one of the three names. *)
Definition alignment_ok (w : world) : Prop :=
  ∃ v, stored "alignment" w = Some v ∧ is_alignment v.

(** The calls the host makes on a built instance. *)
Inductive operation :=
  | Op_merge (data : obj)
  | Op_onPaste (event : PasteEvent)
  | Op_save (toolsContent : loc)
  | Op_settings_click (index : nat) (elements : list loc)
  | Op_read_data.

(** The world an operation leaves behind, whether it returns or throws. *)
Definition after (op : operation) (w : world) : world :=
  match op with
  | Op_merge data => (merge data w).2
  | Op_onPaste event => (onPaste event w).2
  | Op_save toolsContent => (save toolsContent w).2
  | Op_settings_click index elements => (settings_click index elements w).2
  | Op_read_data => (get_data w).2
  end.

(** ** An example document

    The escaping a serialiser applies to text: [&], [<], [>] and the
    no-break space become character references. *)
Definition escape_char (c : ascii) : string :=
  if bool_decide (c = "&"%char) then "&amp;"
  else if bool_decide (c = "<"%char) then "&lt;"
  else if bool_decide (c = ">"%char) then "&gt;"
  else if bool_decide (nat_of_ascii c = 160) then "&nbsp;"
  else String c EmptyString.

Fixpoint escape_text (s : string) : string :=
  match s with
  | EmptyString => EmptyString
  | String c r => escape_char c ++ escape_text r
  end.

(** Markup that is plain text: no tag, and every [&] is followed by a
    space, so that it starts no character reference.  The parser reads such
    markup as one text node with these very characters. *)
Fixpoint is_plain_text (s : string) : bool :=
  match s with
  | EmptyString => true
  | String c r =>
      if bool_decide (c = "<"%char) then false
      else if bool_decide (c = "&"%char) then
        match r with
        | String " "%char _ => is_plain_text r
        | _ => false
        end
      else is_plain_text r
  end.

(** The document of the examples.  Plain text reads back escaped, as in a
    browser; the other markup the examples write is in serialised form
    already and reads back as written. *)
Definition example_reads_back (s : string) : string :=
  if is_plain_text s then escape_text s else s.

(** Inputs used as examples. *)
Definition example_data : obj :=
  <["text" := VString "<b>hi</b>"]> (<["alignment" := VString "right"]> ∅).

Definition example_world : world :=
  (new_Paragraph example_data ∅ test_api ∅ ∅ example_reads_back).2.

Definition hello_world : world :=
  (new_Paragraph (<["text" := VString "Hello "]> ∅) ∅ test_api ∅ ∅ example_reads_back).2.

(** What [drawView] leaves as the owned element, and what the constructor
    makes of it by writing the text. *)
Definition drawn_element (a : Api) (placeholder : value) : element :=
  {| tagName := "DIV";
     classList := token_append ["ce-paragraph"] (to_string (styles_block (styles a)));
     contentEditable := "true";
     dataset := <["placeholder" := to_string (i18n_t a placeholder)]> ∅;
     innerHTML := "";
     listeners := [("keyup", H_onKeyUp)] |}.

Definition resolve_placeholder (config : obj) : value :=
  if to_boolean (obj_get config "placeholder")
  then obj_get config "placeholder"
  else DEFAULT_PLACEHOLDER.

Definition resolve_preserveBlank (config : obj) : value :=
  if strict_ne (obj_get config "preserveBlank") VUndefined
  then obj_get config "preserveBlank"
  else VBool false.

Definition bogus_data : obj := <["alignment" := VString "bogus"]> ∅.
Definition center_config : obj := <["defaultAlignment" := VString "center"]> ∅.
Definition center_data : obj :=
  <["text" := VString "hi"]> (<["alignment" := VString "center"]> ∅).

(** A text that does not read back as written. *)
Definition amp_data : obj :=
  <["text" := VString "a & b"]> (<["alignment" := VString "left"]> ∅).

Definition amp_world : world :=
  (new_Paragraph amp_data ∅ test_api ∅ ∅ example_reads_back).2.

Definition amp_world_read : world := (get_data amp_world).2.

Definition justify_config : obj := <["defaultAlignment" := VString "justify"]> ∅.

Definition justify_world : world :=
  (new_Paragraph ∅ justify_config test_api ∅ ∅ example_reads_back).2.

(** A world in which the host holds one more element, with markup
    ["pasted"], at reference 7. *)
Definition pasted_world : world :=
  World (this example_world) (objs example_world)
    (<[7%positive := with_innerHTML (blank_element "P") "pasted"]> (elems example_world))
    (reads_back example_world).

(** ** Further example inputs *)

(** A text extraction for examples: the markup with everything between [<]
    and [>] left out. *)
Fixpoint strip_tags_from (in_tag : bool) (s : string) : string :=
  match s with
  | EmptyString => EmptyString
  | String c r =>
      if in_tag then strip_tags_from (negb (bool_decide (c = ">"%char))) r
      else if bool_decide (c = "<"%char) then strip_tags_from true r
      else String c (strip_tags_from false r)
  end.

Definition strip_tags (s : string) : string := strip_tags_from false s.

(** An instance whose element holds only a line break. *)
Definition br_world : world :=
  (new_Paragraph (<["text" := VString "<br>"]> ∅) ∅ test_api ∅ ∅ example_reads_back).2.

(** A host api whose block class is the empty string. *)
Definition empty_block_api : Api :=
  {| styles := {| styles_block := VString "";
                  styles_settingsButton := VString "cdx-settings-button";
                  styles_settingsButtonActive := VString "cdx-settings-button--active" |};
     i18n_t := λ v, v |}.

(** * Properties *)

(** ** The primitive steps *)

Lemma get_data_eq (w : world) (e d : loc) (el : element) (o : obj) :
  _element (this w) = Some e → elems w !! e = Some el →
  _data (this w) = Some d → objs w !! d = Some o →
  get_data w = (Normal d,
    World (this w) (<[d := <["text" := VString (innerHTML el)]> o]> (objs w)) (elems w)
      (reads_back w)).
Proof.
  intros He Hel Hd Ho.
  unfold get_data, get_innerHTML, get_element, set_prop, bind, gets, deref, ret, modify.
  rewrite He. simpl. rewrite Hel. simpl. rewrite Hd. simpl. rewrite Ho. reflexivity.
Qed.

Lemma set_data_eq (w : world) (e d : loc) (el : element) (o : obj) :
  _element (this w) = Some e → elems w !! e = Some el → objs w !! d = Some o →
  set_data (Some d) w = (Normal tt,
    World (with_data d (this w)) (objs w)
      (<[e := with_innerHTML el
               (markup_after_write (reads_back w)
                  (to_string (js_or (obj_get o "text") (VString ""))))]> (elems w))
      (reads_back w)).
Proof.
  intros He Hel Ho.
  unfold set_data, set_this, get_prop, set_innerHTML, get_element, put_element,
    bind, gets, deref, ret, modify.
  simpl. rewrite He, Ho. simpl. rewrite Hel. reflexivity.
Qed.

Lemma Object_assign_eq (w : world) (d : loc) (o src : obj) :
  objs w !! d = Some o →
  Object_assign d src w =
    (Normal d, World (this w) (<[d := src ∪ o]> (objs w)) (elems w) (reads_back w)).
Proof.
  intros Ho. unfold Object_assign, bind, gets, deref, ret, modify.
  rewrite Ho. reflexivity.
Qed.

Lemma get_innerHTML_eq (w : world) (c : loc) (el : element) :
  elems w !! c = Some el → get_innerHTML c w = (Normal (innerHTML el), w).
Proof.
  intros H. unfold get_innerHTML, get_element, bind, gets, deref, ret.
  rewrite H. reflexivity.
Qed.

(** Writing a markup string through [|| ""] and ToString gives it back. *)
Lemma to_string_or_empty (s : string) :
  to_string (js_or (VString s) (VString "")) = s.
Proof.
  unfold js_or. simpl. case_bool_decide; simpl; congruence.
Qed.

(** A one-property patch leaves the other properties as they are. *)
Lemma patch_text_other (v : value) (o : obj) (k : string) :
  k ≠ "text" → (<["text" := v]> (∅ : obj) ∪ o) !! k = o !! k.
Proof.
  intros Hk. rewrite lookup_union, lookup_insert_ne, lookup_empty by congruence.
  destruct (o !! k); reflexivity.
Qed.

Lemma patch_text_text (v : value) (o : obj) :
  (<["text" := v]> (∅ : obj) ∪ o) !! "text" = Some v.
Proof.
  rewrite lookup_union, lookup_insert_eq. destruct (o !! "text"); reflexivity.
Qed.

Lemma obj_get_insert_eq (k : string) (v : value) (o : obj) :
  obj_get (<[k := v]> o) k = v.
Proof. unfold obj_get. rewrite lookup_insert_eq. reflexivity. Qed.

Lemma obj_get_insert_ne (k k' : string) (v : value) (o : obj) :
  k ≠ k' → obj_get (<[k := v]> o) k' = obj_get o k'.
Proof. intros H. unfold obj_get. rewrite lookup_insert_ne by assumption. reflexivity. Qed.

Lemma obj_get_patch_text (v : value) (o : obj) :
  obj_get (<["text" := v]> (∅ : obj) ∪ o) "text" = v.
Proof. unfold obj_get. rewrite patch_text_text. reflexivity. Qed.

Lemma constructed_inv (w : world) :
  constructed w →
  ∃ d o e el, _data (this w) = Some d ∧ objs w !! d = Some o ∧
              _element (this w) = Some e ∧ elems w !! e = Some el.
Proof.
  unfold constructed, stored_record, owned_element.
  intros [[o Ho] [el Hel]].
  destruct (_data (this w)) as [d|]; [|discriminate].
  destruct (_element (this w)) as [e|]; [|discriminate].
  simpl in *. eauto 10.
Qed.

(** ** save *)

Lemma save_eq (w : world) (c e d : loc) (cel el : element) (o : obj) :
  _element (this w) = Some e → elems w !! e = Some el →
  _data (this w) = Some d → objs w !! d = Some o →
  elems w !! c = Some cel →
  save c w = (Normal d,
    World (this w)
      (<[d := <["text" := VString (innerHTML cel)]> ∅ ∪ <["text" := VString (innerHTML el)]> o]>
         (objs w))
      (elems w) (reads_back w)).
Proof.
  intros He Hel Hd Ho Hc. unfold save, bind.
  rewrite (get_data_eq w e d el o) by assumption.
  rewrite (get_innerHTML_eq _ c cel) by assumption.
  rewrite (Object_assign_eq _ d (<["text" := VString (innerHTML el)]> o))
    by (simpl; apply lookup_insert_eq).
  simpl. rewrite insert_insert_eq. reflexivity.
Qed.

(** C7: for every container element handed to [save], the call returns the
    reference [this._data] holds (the stored record itself, which stays the
    stored record); afterwards the record's [text] is the container's markup
    and every other property of the record is what it was.  No other object
    and no element changes. *)
Theorem save_returns_stored_record (w : world) (toolsContent : loc) (container : element) :
  constructed w → elems w !! toolsContent = Some container →
  ∃ (d : loc) (o o' : obj) (w' : world),
    save toolsContent w = (Normal d, w') ∧
    _data (this w) = Some d ∧ _data (this w') = Some d ∧
    objs w !! d = Some o ∧ objs w' !! d = Some o' ∧
    o' !! "text" = Some (VString (innerHTML container)) ∧
    (∀ k, k ≠ "text" → o' !! k = o !! k) ∧
    (∀ l, l ≠ d → objs w' !! l = objs w !! l) ∧
    elems w' = elems w.
Proof.
  intros Hc Hcont.
  destruct (constructed_inv w Hc) as (d & o & e & el & Hd & Ho & He & Hel).
  exists d, o,
    (<["text" := VString (innerHTML container)]> ∅ ∪ <["text" := VString (innerHTML el)]> o).
  eexists.
  split; [apply (save_eq w toolsContent e d container el o); assumption|].
  simpl. repeat split; try assumption.
  - apply lookup_insert_eq.
  - apply patch_text_text.
  - intros k Hk. rewrite patch_text_other by assumption.
    apply lookup_insert_ne. congruence.
  - intros l Hl. apply lookup_insert_ne. congruence.
Qed.

Lemma save_returns_stored_record_witness :
  ∃ (d : loc) (o o' : obj) (w' : world),
    save 1%positive example_world = (Normal d, w') ∧
    _data (this example_world) = Some d ∧ _data (this w') = Some d ∧
    objs example_world !! d = Some o ∧ objs w' !! d = Some o' ∧
    o' !! "text" = Some (VString "<b>hi</b>") ∧
    (∀ k, k ≠ "text" → o' !! k = o !! k) ∧
    (∀ l, l ≠ d → objs w' !! l = objs example_world !! l) ∧
    elems w' = elems example_world.
Proof.
  apply (save_returns_stored_record example_world 1%positive
           (with_innerHTML
              {| tagName := "DIV"; classList := ["ce-paragraph"; "cdx-block"];
                 contentEditable := "true";
                 dataset := <["placeholder" := ""]> ∅; innerHTML := "";
                 listeners := [("keyup", H_onKeyUp)] |} "<b>hi</b>")).
  - split; vm_compute; eexists; reflexivity.
  - vm_compute. reflexivity.
Defined.

(** ** onPaste *)

Lemma onPaste_eq (w : world) (event : PasteEvent) (e d : loc) (pel el : element) (o : obj) :
  _element (this w) = Some e → elems w !! e = Some el →
  _data (this w) = Some d → objs w !! d = Some o →
  elems w !! detail_data event = Some pel →
  onPaste event w = (Normal tt,
    World (with_data d (this w))
      (<[d := <["text" := VString (innerHTML pel)]> ∅ ∪ <["text" := VString (innerHTML el)]> o]>
         (objs w))
      (<[e := with_innerHTML el (markup_after_write (reads_back w) (innerHTML pel))]>
         (elems w))
      (reads_back w)).
Proof.
  intros He Hel Hd Ho Hp. unfold onPaste, bind.
  rewrite (get_innerHTML_eq _ _ pel) by assumption.
  rewrite (get_data_eq w e d el o) by assumption.
  rewrite (Object_assign_eq _ d (<["text" := VString (innerHTML el)]> o))
    by (simpl; apply lookup_insert_eq).
  simpl. rewrite insert_insert_eq.
  erewrite (set_data_eq _ e d el); simpl;
    [| eassumption | eassumption | apply lookup_insert_eq].
  rewrite obj_get_patch_text, to_string_or_empty. reflexivity.
Qed.

(** C8: for every paste event whose [detail.data] is an element, [onPaste]
    returns, the stored record is the same object as before, its [text] is the
    markup of [detail.data], and every other property of the record (the
    alignment among them) is what it was. *)
Theorem onPaste_overwrites_text_only (w : world) (event : PasteEvent) (pasted : element) :
  constructed w → elems w !! detail_data event = Some pasted →
  ∃ (d : loc) (o o' : obj) (w' : world),
    onPaste event w = (Normal tt, w') ∧
    _data (this w) = Some d ∧ _data (this w') = Some d ∧
    objs w !! d = Some o ∧ objs w' !! d = Some o' ∧
    o' !! "text" = Some (VString (innerHTML pasted)) ∧
    (∀ k, k ≠ "text" → o' !! k = o !! k) ∧
    o' !! "alignment" = o !! "alignment" ∧
    (∀ l, l ≠ d → objs w' !! l = objs w !! l).
Proof.
  intros Hc Hp.
  destruct (constructed_inv w Hc) as (d & o & e & el & Hd & Ho & He & Hel).
  exists d, o,
    (<["text" := VString (innerHTML pasted)]> ∅ ∪ <["text" := VString (innerHTML el)]> o).
  eexists.
  split; [apply (onPaste_eq w event e d pasted el o); assumption|].
  simpl.
  assert (Hother : ∀ k, k ≠ "text" →
            (<["text" := VString (innerHTML pasted)]> (∅ : obj)
               ∪ <["text" := VString (innerHTML el)]> o) !! k = o !! k).
  { intros k Hk. rewrite patch_text_other by assumption.
    apply lookup_insert_ne. congruence. }
  repeat split; try assumption.
  - apply lookup_insert_eq.
  - apply patch_text_text.
  - apply Hother. discriminate.
  - intros l Hl. apply lookup_insert_ne. congruence.
Qed.

Lemma onPaste_overwrites_text_only_witness :
  ∃ (d : loc) (o o' : obj) (w' : world),
    onPaste {| detail_data := 7%positive |} pasted_world = (Normal tt, w') ∧
    _data (this pasted_world) = Some d ∧ _data (this w') = Some d ∧
    objs pasted_world !! d = Some o ∧ objs w' !! d = Some o' ∧
    o' !! "text" = Some (VString "pasted") ∧
    (∀ k, k ≠ "text" → o' !! k = o !! k) ∧
    o' !! "alignment" = o !! "alignment" ∧
    (∀ l, l ≠ d → objs w' !! l = objs pasted_world !! l).
Proof.
  apply (onPaste_overwrites_text_only pasted_world {| detail_data := 7%positive |}
           (with_innerHTML (blank_element "P") "pasted")).
  - split; vm_compute; eexists; reflexivity.
  - vm_compute. reflexivity.
Defined.

(** ** merge *)

Lemma merge_eq (w : world) (data : obj) (e d : loc) (el : element) (o : obj) :
  _element (this w) = Some e → elems w !! e = Some el →
  _data (this w) = Some d → objs w !! d = Some o →
  merge data w = (Normal tt,
    World (with_data d (this w))
      (<[d := <["text" := VString (innerHTML el ++ to_string (obj_get data "text"))]> ∅
               ∪ <["text" := VString (innerHTML el)]> o]> (objs w))
      (<[e := with_innerHTML el
               (markup_after_write (reads_back w)
                  (innerHTML el ++ to_string (obj_get data "text")))]> (elems w))
      (reads_back w)).
Proof.
  intros He Hel Hd Ho. unfold merge, bind.
  rewrite (get_data_eq w e d el o) by assumption.
  unfold get_prop at 1. unfold bind, gets, deref, ret. simpl.
  rewrite lookup_insert_eq. simpl.
  unfold obj_get at 1. rewrite lookup_insert_eq. simpl.
  erewrite (get_data_eq _ e d el); simpl;
    [| eassumption | eassumption | eassumption | apply lookup_insert_eq].
  rewrite insert_insert_eq.
  erewrite Object_assign_eq by (simpl; apply lookup_insert_eq).
  simpl. rewrite insert_insert_eq.
  erewrite (set_data_eq _ e d el); simpl;
    [| eassumption | eassumption | apply lookup_insert_eq].
  rewrite obj_get_patch_text, to_string_or_empty, insert_insert_eq. reflexivity.
Qed.

(** C5: for every incoming record whose [text] is a string, [merge] returns
    and leaves in the stored record, as [text], the text the [data] getter
    reads at that moment, which is the markup of the owned element, followed
    by the incoming text; the record is the same object, and its alignment
    and every other property are what they were. *)
Theorem merge_concatenates_text (w : world) (data : obj) (incoming : string) (el : element) :
  constructed w → owned_element w = Some el → obj_get data "text" = VString incoming →
  ∃ (d : loc) (o o' : obj) (w0 w' : world),
    get_data w = (Normal d, w0) ∧ stored "text" w0 = Some (VString (innerHTML el)) ∧
    merge data w = (Normal tt, w') ∧
    _data (this w) = Some d ∧ _data (this w') = Some d ∧
    objs w !! d = Some o ∧ objs w' !! d = Some o' ∧
    o' !! "text" = Some (VString (innerHTML el ++ incoming)) ∧
    stored "text" w' = Some (VString (innerHTML el ++ incoming)) ∧
    o' !! "alignment" = o !! "alignment" ∧
    (∀ k, k ≠ "text" → o' !! k = o !! k).
Proof.
  intros Hc Hown Hin.
  destruct (constructed_inv w Hc) as (d & o & e & el' & Hd & Ho & He & Hel).
  assert (el' = el) as ->.
  { unfold owned_element in Hown. rewrite He in Hown. simpl in Hown. congruence. }
  exists d, o,
    (<["text" := VString (innerHTML el ++ incoming)]> ∅ ∪ <["text" := VString (innerHTML el)]> o).
  eexists. eexists.
  split; [apply (get_data_eq w e d el o); assumption|].
  split.
  { unfold stored, stored_record. simpl. rewrite Hd. simpl.
    rewrite lookup_insert_eq. simpl. unfold obj_get.
    rewrite lookup_insert_eq. reflexivity. }
  split.
  { rewrite (merge_eq w data e d el o) by assumption. rewrite Hin. reflexivity. }
  simpl.
  assert (Hother : ∀ k, k ≠ "text" →
            (<["text" := VString (innerHTML el ++ incoming)]> (∅ : obj)
               ∪ <["text" := VString (innerHTML el)]> o) !! k = o !! k).
  { intros k Hk. rewrite patch_text_other by assumption.
    apply lookup_insert_ne. congruence. }
  repeat split; try assumption.
  - apply lookup_insert_eq.
  - apply patch_text_text.
  - unfold stored, stored_record. simpl. rewrite lookup_insert_eq. simpl.
    rewrite obj_get_patch_text. reflexivity.
  - apply Hother. discriminate.
Qed.

Lemma merge_concatenates_text_witness :
  ∃ (d : loc) (o o' : obj) (w0 w' : world),
    get_data hello_world = (Normal d, w0) ∧ stored "text" w0 = Some (VString "Hello ") ∧
    merge (<["text" := VString "World"]> ∅) hello_world = (Normal tt, w') ∧
    _data (this hello_world) = Some d ∧ _data (this w') = Some d ∧
    objs hello_world !! d = Some o ∧ objs w' !! d = Some o' ∧
    o' !! "text" = Some (VString "Hello World") ∧
    stored "text" w' = Some (VString "Hello World") ∧
    o' !! "alignment" = o !! "alignment" ∧
    (∀ k, k ≠ "text" → o' !! k = o !! k).
Proof.
  apply (merge_concatenates_text hello_world (<["text" := VString "World"]> ∅) "World"
           (with_innerHTML (drawn_element test_api (VString "")) "Hello ")).
  - split; vm_compute; eexists; reflexivity.
  - vm_compute. reflexivity.
  - vm_compute. reflexivity.
Defined.

(** The example of the claim, evaluated. *)
Example merge_hello_world :
  stored "text" (merge (<["text" := VString "World"]> ∅) hello_world).2
    = Some (VString "Hello World").
Proof. vm_compute. reflexivity. Qed.

(** ** The constructor *)

Lemma new_Paragraph_eq (data config : obj) (a : Api)
    (os : gmap loc (gmap string value)) (es : gmap loc element) (rb : string → string) :
  check_token (to_string (styles_block (styles a))) = None →
  new_Paragraph data config a os es rb = (Normal tt,
    World
      {| api := Some a;
         _CSS := Some {| block := styles_block (styles a);
                         wrapper := VString "ce-paragraph";
                         settingsWrapper := VString "cdx-paragraph-settings";
                         settingsButton := styles_settingsButton (styles a);
                         settingsButtonActive := styles_settingsButtonActive (styles a) |};
         _placeholder := resolve_placeholder config;
         _data := Some (fresh (dom (<[fresh (dom os) := ∅]> os)));
         _element := Some (fresh (dom es));
         _preserveBlank := resolve_preserveBlank config |}
      (<[fresh (dom (<[fresh (dom os) := ∅]> os)) :=
           <["text" := js_or (obj_get data "text") (VString "")]>
             (<["alignment" := resolve_alignment data config]> ∅)]>
         (<[fresh (dom os) := ∅]> os))
      (<[fresh (dom es) :=
           with_innerHTML (drawn_element a (resolve_placeholder config))
             (markup_after_write rb
                (to_string (js_or (js_or (obj_get data "text") (VString "")) (VString ""))))]>
         es)
      rb).
Proof.
  intros Hblk.
  unfold new_Paragraph, constructor, drawView, set_data, new_object, createElement,
    classList_add, set_contentEditable, set_dataset, addEventListener, set_innerHTML,
    get_prop, get_element, put_element, lift_tokens, set_this,
    bind, gets, deref, ret, modify, throw.
  simpl.
  rewrite !lookup_insert_eq. simpl.
  unfold DOMTokenList_add. simpl. rewrite Hblk. simpl.
  repeat (rewrite ?lookup_insert_eq, ?insert_insert_eq; simpl).
  rewrite obj_get_insert_eq. reflexivity.
Qed.

Lemma js_or_string_empty (t : string) : js_or (VString t) (VString "") = VString t.
Proof. unfold js_or. simpl. case_bool_decide; simpl; congruence. Qed.

Lemma is_alignment_includes (v : value) :
  is_alignment v ↔ includes (Object_values ALIGNMENTS) v = true.
Proof.
  unfold includes, is_alignment. simpl. rewrite bool_decide_eq_true.
  rewrite !elem_of_cons, elem_of_nil. tauto.
Qed.

Lemma is_alignment_truthy (v : value) : is_alignment v → to_boolean v = true.
Proof. intros [-> | [-> | ->]]; reflexivity. Qed.

(** The three cases of the expression that resolves the alignment. *)
Lemma resolve_alignment_cases (data config : obj) :
  (is_alignment (obj_get data "alignment") →
     resolve_alignment data config = obj_get data "alignment") ∧
  (¬ is_alignment (obj_get data "alignment") →
     to_boolean (obj_get config "defaultAlignment") = true →
     resolve_alignment data config = obj_get config "defaultAlignment") ∧
  (¬ is_alignment (obj_get data "alignment") →
     to_boolean (obj_get config "defaultAlignment") = false →
     resolve_alignment data config = VString "left").
Proof.
  unfold resolve_alignment.
  destruct (includes (Object_values ALIGNMENTS) (obj_get data "alignment")) eqn:Hinc.
  - apply is_alignment_includes in Hinc.
    pose proof (is_alignment_truthy _ Hinc) as Ht.
    repeat split; intros; try contradiction.
    unfold js_and, js_or. cbn [to_boolean]. rewrite !Ht. reflexivity.
  - assert (Hn : ¬ is_alignment (obj_get data "alignment")).
    { rewrite is_alignment_includes, Hinc. discriminate. }
    repeat split; intros; try contradiction.
    + unfold js_and, js_or. cbn [to_boolean]. rewrite !H0. reflexivity.
    + unfold js_and, js_or. cbn [to_boolean]. rewrite !H0. reflexivity.
Qed.

Lemma stored_after_new (data config : obj) (a : Api)
    (os : gmap loc (gmap string value)) (es : gmap loc element) (rb : string → string) (w : world) :
  new_Paragraph data config a os es rb = (Normal tt, w) →
  check_token (to_string (styles_block (styles a))) = None →
  stored_record w =
    Some (<["text" := js_or (obj_get data "text") (VString "")]>
            (<["alignment" := resolve_alignment data config]> ∅)).
Proof.
  intros Hnew Hblk. rewrite new_Paragraph_eq in Hnew by assumption.
  injection Hnew as <-. unfold stored_record. simpl.
  apply lookup_insert_eq.
Qed.

Lemma alignment_stored_after_new (data config : obj) (a : Api)
    (os : gmap loc (gmap string value)) (es : gmap loc element) (rb : string → string) (w : world) :
  new_Paragraph data config a os es rb = (Normal tt, w) →
  check_token (to_string (styles_block (styles a))) = None →
  stored "alignment" w = Some (resolve_alignment data config) ∧
  stored "text" w = Some (js_or (obj_get data "text") (VString "")).
Proof.
  intros Hnew Hblk. unfold stored.
  rewrite (stored_after_new _ _ _ _ _ _ _ Hnew Hblk). simpl.
  rewrite obj_get_insert_ne by discriminate.
  rewrite !obj_get_insert_eq. split; reflexivity.
Qed.

(** C2: whenever the host's block class is a usable token the constructor
    returns, and the alignment it stores follows the chain of the source:
    [data.alignment] when that is one of the three names; otherwise
    [config.defaultAlignment] when that is given with a truthy value (any
    non-empty string, so any of the three names); otherwise (absent,
    [undefined] or another falsy value) the default ["left"]. *)
Theorem alignment_priority_chain (data config : obj) (a : Api)
    (os : gmap loc (gmap string value)) (es : gmap loc element) (rb : string → string) :
  check_token (to_string (styles_block (styles a))) = None →
  ∃ w : world,
    new_Paragraph data config a os es rb = (Normal tt, w) ∧
    (is_alignment (obj_get data "alignment") →
       stored "alignment" w = Some (obj_get data "alignment")) ∧
    (¬ is_alignment (obj_get data "alignment") →
       to_boolean (obj_get config "defaultAlignment") = true →
       stored "alignment" w = Some (obj_get config "defaultAlignment")) ∧
    (¬ is_alignment (obj_get data "alignment") →
       ∀ s, s ≠ "" → config !! "defaultAlignment" = Some (VString s) →
       stored "alignment" w = Some (VString s)) ∧
    (¬ is_alignment (obj_get data "alignment") →
       to_boolean (obj_get config "defaultAlignment") = false →
       stored "alignment" w = Some (VString "left")) ∧
    (¬ is_alignment (obj_get data "alignment") →
       config !! "defaultAlignment" = None →
       stored "alignment" w = Some (VString "left")).
Proof.
  intros Hblk.
  pose proof (new_Paragraph_eq data config a os es rb Hblk) as Hnew.
  match type of Hnew with _ = (_, ?W) => set (w := W) in * end.
  exists w. split; [exact Hnew|].
  destruct (resolve_alignment_cases data config) as (H1 & H2 & H3).
  assert (Hst : ∀ v, resolve_alignment data config = v →
                     stored "alignment" w = Some v).
  { intros v Hv. unfold stored.
    rewrite (stored_after_new _ _ _ _ _ _ _ Hnew Hblk). simpl.
    rewrite obj_get_insert_ne by discriminate.
    rewrite obj_get_insert_eq. congruence. }
  repeat split.
  - intros H. apply Hst, H1, H.
  - intros Hn Ht. apply Hst, H2; assumption.
  - intros Hn s Hs Hcfg. apply Hst.
    assert (Hg : obj_get config "defaultAlignment" = VString s)
      by (unfold obj_get; rewrite Hcfg; reflexivity).
    rewrite <- Hg. apply H2; [assumption|].
    rewrite Hg. simpl. rewrite bool_decide_eq_false_2 by assumption. reflexivity.
  - intros Hn Hf. apply Hst, H3; assumption.
  - intros Hn Hcfg. apply Hst, H3; [assumption|].
    unfold obj_get. rewrite Hcfg. reflexivity.
Qed.

Lemma alignment_priority_chain_witness :
  ∃ w : world,
    new_Paragraph bogus_data center_config test_api ∅ ∅ example_reads_back = (Normal tt, w) ∧
    stored "alignment" w = Some (VString "center").
Proof.
  destruct (alignment_priority_chain bogus_data center_config test_api ∅ ∅ example_reads_back)
    as (w & Hnew & _ & Hcfg & _).
  - vm_compute. reflexivity.
  - exists w. split; [exact Hnew|].
    apply Hcfg.
    + vm_compute. intros [H | [H | H]]; discriminate H.
    + vm_compute. reflexivity.
Defined.

(** The examples of the claim, evaluated: ["center"] in the data wins over a
    configured default, and ["bogus"] falls back to the default or ["left"]. *)
Example construct_center_wins :
  stored "alignment"
    (new_Paragraph center_data (<["defaultAlignment" := VString "right"]> ∅) test_api ∅ ∅ example_reads_back).2
  = Some (VString "center").
Proof. vm_compute. reflexivity. Qed.

Example construct_bogus_falls_back :
  stored "alignment" (new_Paragraph bogus_data center_config test_api ∅ ∅ example_reads_back).2
    = Some (VString "center") ∧
  stored "alignment" (new_Paragraph bogus_data ∅ test_api ∅ ∅ example_reads_back).2
    = Some (VString "left").
Proof. split; vm_compute; reflexivity. Qed.

(** C6, as the claim states it, fails: markup is parsed when it is written
    to the element and serialised when it is read.  In the example document
    the text ["a & b"] reads back as ["a &amp; b"], so that is the text the
    record holds after construction and one read of [data]. *)
Lemma construct_then_read_counterexample :
  ¬ (∀ (data config : obj) (a : Api)
       (os : gmap loc (gmap string value)) (es : gmap loc element) (rb : string → string)
       (t al : string),
       check_token (to_string (styles_block (styles a))) = None →
       obj_get data "text" = VString t →
       obj_get data "alignment" = VString al →
       is_alignment (VString al) →
       ∃ (w w' : world) (d : loc) (o : obj),
         new_Paragraph data config a os es rb = (Normal tt, w) ∧
         get_data w = (Normal d, w') ∧ objs w' !! d = Some o ∧
         o !! "text" = Some (VString t) ∧ o !! "alignment" = Some (VString al)).
Proof.
  intros H.
  destruct (H amp_data ∅ test_api ∅ ∅ example_reads_back "a & b" "left"
              eq_refl eq_refl eq_refl (or_introl eq_refl))
    as (w & w' & d & o & Hnew & Hget & Ho & Ht & _).
  assert (Hw : new_Paragraph amp_data ∅ test_api ∅ ∅ example_reads_back
               = (Normal tt, amp_world)) by (vm_compute; reflexivity).
  rewrite Hw in Hnew. injection Hnew as <-.
  assert (Hr : get_data amp_world = (Normal 2%positive, amp_world_read))
    by (vm_compute; reflexivity).
  rewrite Hr in Hget. injection Hget as <- <-.
  vm_compute in Ho. injection Ho as <-.
  vm_compute in Ht. discriminate Ht.
Qed.

(** The counterexample, evaluated. *)
Example construct_then_read_amp :
  stored "text" amp_world_read = Some (VString "a &amp; b").
Proof. vm_compute. reflexivity. Qed.

(** C6, amended: when the data carries a string [t] as text and one of the
    three names [al] as alignment (and the host's block class is a usable
    token), the constructor returns, and reading [data] right after it
    returns the stored record, whose [alignment] is [al], which has no
    property besides text and alignment, and whose [text] is the element's
    markup: what reads back after [t] was written.  That is [t] itself
    whenever [t] reads back as written (and always for the empty text). *)
Theorem construct_then_read_roundtrip (data config : obj) (a : Api)
    (os : gmap loc (gmap string value)) (es : gmap loc element) (rb : string → string)
    (t al : string) :
  check_token (to_string (styles_block (styles a))) = None →
  obj_get data "text" = VString t →
  obj_get data "alignment" = VString al →
  is_alignment (VString al) →
  ∃ (w w' : world) (d : loc) (el : element),
    new_Paragraph data config a os es rb = (Normal tt, w) ∧
    owned_element w = Some el ∧ innerHTML el = markup_after_write rb t ∧
    get_data w = (Normal d, w') ∧
    _data (this w') = Some d ∧
    objs w' !! d =
      Some (<["text" := VString (markup_after_write rb t)]>
              (<["alignment" := VString al]> ∅)) ∧
    (markup_after_write rb t = t →
       objs w' !! d = Some (<["text" := VString t]> (<["alignment" := VString al]> ∅))).
Proof.
  intros Hblk Ht Hal Hin.
  pose proof (new_Paragraph_eq data config a os es rb Hblk) as Hnew.
  destruct (resolve_alignment_cases data config) as (H1 & _).
  rewrite Hal in H1. specialize (H1 Hin).
  rewrite H1, Ht, !js_or_string_empty in Hnew. simpl in Hnew.
  match type of Hnew with _ = (_, ?W) => set (w := W) in * end.
  exists w. eexists. eexists. eexists.
  split; [exact Hnew|].
  split; [unfold owned_element; simpl; apply lookup_insert_eq|].
  split; [reflexivity|].
  split.
  { apply get_data_eq with (e := fresh (dom es)); simpl;
      [reflexivity | apply lookup_insert_eq | reflexivity | apply lookup_insert_eq]. }
  simpl. split; [reflexivity|].
  rewrite lookup_insert_eq, insert_insert_eq.
  split; [reflexivity|]. intros ->. reflexivity.
Qed.

Lemma construct_then_read_roundtrip_witness :
  ∃ (w w' : world) (d : loc) (el : element),
    new_Paragraph example_data ∅ test_api ∅ ∅ example_reads_back = (Normal tt, w) ∧
    owned_element w = Some el ∧ innerHTML el = "<b>hi</b>" ∧
    get_data w = (Normal d, w') ∧
    _data (this w') = Some d ∧
    objs w' !! d = Some (<["text" := VString "<b>hi</b>"]> (<["alignment" := VString "right"]> ∅)).
Proof.
  destruct (construct_then_read_roundtrip example_data ∅ test_api ∅ ∅ example_reads_back
              "<b>hi</b>" "right")
    as (w & w' & d & el & Hnew & Hown & Hel & Hget & Hd & _ & Ho).
  - vm_compute. reflexivity.
  - vm_compute. reflexivity.
  - vm_compute. reflexivity.
  - right. right. reflexivity.
  - exists w, w', d, el. split; [exact Hnew|]. split; [exact Hown|].
    split; [rewrite Hel; vm_compute; reflexivity|].
    split; [exact Hget|]. split; [exact Hd|].
    apply Ho. vm_compute. reflexivity.
Defined.

(** C9: whenever the host's block class is a usable token the constructor
    returns with an owned element that [drawView] made: a [DIV] that carries
    the wrapper class and the host's block class and nothing else, is marked
    editable, has the translated placeholder as its [data-placeholder], and
    has the key-up listener.  No alignment class is added: the class list has
    only those two entries, whatever alignment was resolved.  [render] returns
    that element and leaves the world as it is. *)
Theorem drawView_adds_no_alignment_class (data config : obj) (a : Api)
    (os : gmap loc (gmap string value)) (es : gmap loc element) (rb : string → string) :
  check_token (to_string (styles_block (styles a))) = None →
  ∃ (w : world) (e : loc) (el : element),
    new_Paragraph data config a os es rb = (Normal tt, w) ∧
    _element (this w) = Some e ∧ elems w !! e = Some el ∧
    tagName el = "DIV" ∧
    classList el = token_append ["ce-paragraph"] (to_string (styles_block (styles a))) ∧
    (∀ c, c ∈ classList el → c = "ce-paragraph" ∨ c = to_string (styles_block (styles a))) ∧
    contentEditable el = "true" ∧
    dataset el !! "placeholder" = Some (to_string (i18n_t a (resolve_placeholder config))) ∧
    listeners el = [("keyup", H_onKeyUp)] ∧
    render w = (Normal (Some e), w).
Proof.
  intros Hblk.
  pose proof (new_Paragraph_eq data config a os es rb Hblk) as Hnew.
  match type of Hnew with _ = (_, ?W) => set (w := W) in * end.
  exists w. eexists. eexists.
  split; [exact Hnew|].
  split; [reflexivity|].
  split; [simpl; apply lookup_insert_eq|].
  simpl. repeat split.
  intros c. unfold token_append. case_bool_decide.
  - rewrite list_elem_of_singleton. auto.
  - rewrite elem_of_app, !list_elem_of_singleton. tauto.
Qed.

Lemma drawView_adds_no_alignment_class_witness :
  ∃ (w : world) (el : element),
    new_Paragraph center_data ∅ test_api ∅ ∅ example_reads_back = (Normal tt, w) ∧
    owned_element w = Some el ∧
    stored "alignment" w = Some (VString "center") ∧
    classList el = ["ce-paragraph"; "cdx-block"] ∧
    "center" ∉ classList el.
Proof.
  destruct (drawView_adds_no_alignment_class center_data ∅ test_api ∅ ∅ example_reads_back)
    as (w & e & el & Hnew & He & Hel & _ & Hcl & Hall & _).
  - vm_compute. reflexivity.
  - exists w, el. split; [exact Hnew|].
    split; [unfold owned_element; rewrite He; exact Hel|].
    split.
    + destruct (alignment_stored_after_new center_data ∅ test_api ∅ ∅ example_reads_back w Hnew) as [H _].
      * vm_compute. reflexivity.
      * rewrite H. vm_compute. reflexivity.
    + split; [rewrite Hcl; vm_compute; reflexivity|].
      intros Hin. apply Hall in Hin. destruct Hin as [Hin | Hin]; vm_compute in Hin;
        discriminate Hin.
Defined.

(** ** validate *)

(** C3: for every record whose [text] is a string, [validate] returns a
    boolean and changes nothing; the boolean is [false] exactly when the
    trimmed text is empty and the instance's [_preserveBlank] is falsy (for a
    boolean: is [false]), and [true] in every other case. *)
Theorem validate_false_iff_blank (w : world) (savedData : obj) (text : string) :
  obj_get savedData "text" = VString text →
  ∃ b : bool,
    validate savedData w = (Normal b, w) ∧
    (b = false ↔ trim text = "" ∧ to_boolean (_preserveBlank (this w)) = false) ∧
    (b = true ↔ trim text ≠ "" ∨ to_boolean (_preserveBlank (this w)) = true) ∧
    (∀ pb : bool, _preserveBlank (this w) = VBool pb →
       (b = false ↔ trim text = "" ∧ pb = false)).
Proof.
  intros Ht. unfold validate. rewrite Ht. unfold bind, gets, ret, strict_eq.
  destruct (to_boolean (_preserveBlank (this w))) eqn:Hpb;
    case_bool_decide as Htrim; simpl.
  - exists true. split; [reflexivity|]. split; [|split].
    + split; [discriminate | intros [_ H]; discriminate H].
    + split; auto.
    + intros pb Hv. rewrite Hv in Hpb. simpl in Hpb. subst pb.
      split; [discriminate | intros [_ H]; discriminate H].
  - exists true. split; [reflexivity|]. split; [|split].
    + split; [discriminate | intros [_ H]; discriminate H].
    + split; auto.
    + intros pb Hv. rewrite Hv in Hpb. simpl in Hpb. subst pb.
      split; [discriminate | intros [_ H]; discriminate H].
  - exists false. injection Htrim as Htrim. split; [reflexivity|]. split; [|split].
    + split; auto.
    + split; [discriminate | intros [H | H]; [contradiction | discriminate H]].
    + intros pb Hv. rewrite Hv in Hpb. simpl in Hpb. subst pb. split; auto.
  - exists true. split; [reflexivity|].
    assert (Hne : trim text ≠ "") by congruence.
    split; [|split].
    + split; [discriminate | intros [H _]; contradiction].
    + split; auto.
    + intros pb Hv. split; [discriminate | intros [H _]; contradiction].
Qed.

Lemma validate_false_iff_blank_witness :
  validate (<["text" := VString "   "]> ∅) example_world = (Normal false, example_world).
Proof.
  destruct (validate_false_iff_blank example_world (<["text" := VString "   "]> ∅) "   ")
    as (b & Hv & Hf & _).
  - vm_compute. reflexivity.
  - rewrite Hv. f_equal. f_equal. apply Hf. split; vm_compute; reflexivity.
Defined.

(** The examples of the claim, evaluated: blank text with the default
    configuration and with [preserveBlank: true], and text that is not
    blank. *)
Example validate_blank_default :
  (validate (<["text" := VString "   "]> ∅)
     (new_Paragraph ∅ ∅ test_api ∅ ∅ example_reads_back).2).1 = Normal false.
Proof. vm_compute. reflexivity. Qed.

Example validate_blank_preserved :
  (validate (<["text" := VString "   "]> ∅)
     (new_Paragraph ∅ (<["preserveBlank" := VBool true]> ∅) test_api ∅ ∅ example_reads_back).2).1 = Normal true.
Proof. vm_compute. reflexivity. Qed.

Example validate_hello :
  (validate (<["text" := VString "hello"]> ∅)
     (new_Paragraph ∅ ∅ test_api ∅ ∅ example_reads_back).2).1 = Normal true.
Proof. vm_compute. reflexivity. Qed.

(** C10: [validate] returns only for a [text] that is a string.  When the
    [text] of the record is absent, [undefined] or [null] (or any value that
    is not a string) the call throws a TypeError and changes nothing; when it
    is a string the call returns a boolean. *)
Theorem validate_requires_string_text (w : world) (savedData : obj) :
  (savedData !! "text" = None ∨ savedData !! "text" = Some VUndefined ∨
   savedData !! "text" = Some VNull →
     validate savedData w = (Throw TypeError, w)) ∧
  ((∀ s, obj_get savedData "text" ≠ VString s) →
     validate savedData w = (Throw TypeError, w)) ∧
  (∀ s, savedData !! "text" = Some (VString s) →
     ∃ b : bool, validate savedData w = (Normal b, w)).
Proof.
  split; [|split].
  - intros H. unfold validate, obj_get.
    destruct H as [-> | [-> | ->]]; reflexivity.
  - intros H. unfold validate.
    destruct (obj_get savedData "text") as [| | b | s]; try reflexivity.
    exfalso. apply (H s). reflexivity.
  - intros s H. unfold validate, obj_get. rewrite H. simpl.
    unfold bind, gets.
    destruct (strict_eq (VString (trim s)) (VString "")
              && negb (to_boolean (_preserveBlank (this w)))); eauto.
Qed.

Lemma validate_requires_string_text_witness :
  validate ∅ example_world = (Throw TypeError, example_world) ∧
  validate (<["text" := VNull]> ∅) example_world = (Throw TypeError, example_world) ∧
  ∃ b : bool,
    validate (<["text" := VString "hi"]> ∅) example_world = (Normal b, example_world).
Proof.
  split; [|split].
  - apply (proj1 (validate_requires_string_text example_world ∅)).
    left. reflexivity.
  - apply (proj1 (validate_requires_string_text example_world (<["text" := VNull]> ∅))).
    right. right. vm_compute. reflexivity.
  - apply (proj2 (proj2 (validate_requires_string_text example_world
                           (<["text" := VString "hi"]> ∅))) "hi").
    vm_compute. reflexivity.
Defined.

(** ** _toggleTune *)

Lemma _toggleTune_eq (w : world) (tune : value) (e d : loc) (el : element) (o : obj) :
  _element (this w) = Some e → elems w !! e = Some el →
  _data (this w) = Some d → objs w !! d = Some o →
  _toggleTune tune w = (Throw TypeError,
    World (this w)
      (<[d := <["alignment" := tune]> (<["text" := VString (innerHTML el)]> o)]> (objs w))
      (elems w) (reads_back w)).
Proof.
  intros He Hel Hd Ho. unfold _toggleTune, bind.
  rewrite (get_data_eq w e d el o) by assumption.
  unfold set_prop, bind, gets, deref, ret, modify. simpl.
  rewrite lookup_insert_eq. simpl. rewrite insert_insert_eq. reflexivity.
Qed.

(** C1: on every built instance and for every name, [_toggleTune] as the
    source has it stores the name as the record's alignment and then throws
    a TypeError, at [this.wrapper.classList], before any class is touched: the
    owned element, and so its class list, is what it was before the call. *)
Theorem toggleTune_throws_before_classes (w : world) (tune : string) :
  constructed w →
  ∃ (w' : world) (el : element),
    _toggleTune (VString tune) w = (Throw TypeError, w') ∧
    stored "alignment" w' = Some (VString tune) ∧
    owned_element w = Some el ∧ owned_element w' = Some el ∧
    elems w' = elems w.
Proof.
  intros Hc.
  destruct (constructed_inv w Hc) as (d & o & e & el & Hd & Ho & He & Hel).
  eexists. exists el.
  split; [apply (_toggleTune_eq w (VString tune) e d el o); assumption|].
  unfold stored, stored_record, owned_element. simpl.
  rewrite Hd, He. simpl. rewrite lookup_insert_eq. simpl.
  rewrite obj_get_insert_eq. auto.
Qed.

Lemma toggleTune_throws_before_classes_witness :
  ∃ (w' : world) (el : element),
    _toggleTune (VString "center") example_world = (Throw TypeError, w') ∧
    stored "alignment" w' = Some (VString "center") ∧
    owned_element w' = Some el ∧
    classList el = ["ce-paragraph"; "cdx-block"] ∧
    alignment_classes el = [].
Proof.
  destruct (toggleTune_throws_before_classes example_world "center")
    as (w' & el & Hrun & Hal & Hel & Hel' & _).
  - split; vm_compute; eexists; reflexivity.
  - exists w', el. split; [exact Hrun|]. split; [exact Hal|]. split; [exact Hel'|].
    vm_compute in Hel. injection Hel as <-.
    split; vm_compute; reflexivity.
Defined.

(** *** The bundle's _toggleTune *)

Lemma classList_remove_eq (w : world) (l : loc) (el : element) (ts : list string) :
  elems w !! l = Some el → check_tokens ts = None →
  classList_remove l ts w = (Normal tt,
    World (this w) (objs w)
      (<[l := with_classList el (foldl token_remove (classList el) ts)]> (elems w)) (reads_back w)).
Proof.
  intros Hel Hts.
  unfold classList_remove, get_element, lift_tokens, DOMTokenList_remove, put_element,
    bind, gets, deref, ret, modify.
  rewrite Hel. simpl. rewrite Hts. reflexivity.
Qed.

Lemma classList_add_eq (w : world) (l : loc) (el : element) (ts : list string) :
  elems w !! l = Some el → check_tokens ts = None →
  classList_add l ts w = (Normal tt,
    World (this w) (objs w)
      (<[l := with_classList el (foldl token_append (classList el) ts)]> (elems w)) (reads_back w)).
Proof.
  intros Hel Hts.
  unfold classList_add, get_element, lift_tokens, DOMTokenList_add, put_element,
    bind, gets, deref, ret, modify.
  rewrite Hel. simpl. rewrite Hts. reflexivity.
Qed.

Lemma alignment_names_eq : alignment_names = ["left"; "center"; "right"].
Proof. reflexivity. Qed.

Lemma alignment_name_token (tune : string) :
  tune ∈ alignment_names → check_tokens [tune] = None.
Proof.
  rewrite alignment_names_eq, !elem_of_cons, elem_of_nil.
  intros [-> | [-> | [-> | []]]]; reflexivity.
Qed.

(** Once the three names are removed no alignment class is left. *)
Lemma removed_all_alignments (cl : list string) :
  alignment_classes_of
    (token_remove (token_remove (token_remove cl "left") "center") "right") = [].
Proof.
  apply elem_of_nil_inv. intros c. unfold alignment_classes_of, token_remove.
  rewrite !list_elem_of_filter, alignment_names_eq, !elem_of_cons, elem_of_nil.
  intros [[-> | [-> | [-> | []]]] (? & (? & ? & _))]; congruence.
Qed.

Lemma removed_alignments_keep_others (cl : list string) (c : string) :
  c ∉ alignment_names →
  c ∈ token_remove (token_remove (token_remove cl "left") "center") "right" ↔ c ∈ cl.
Proof.
  unfold token_remove.
  rewrite !list_elem_of_filter, alignment_names_eq, !elem_of_cons, elem_of_nil.
  intros Hn. split; [tauto|]. intros Hin.
  repeat split; try assumption; intros ->; tauto.
Qed.

Lemma Dist_toggleTune_eq (w : world) (tune : string) (e d : loc) (el : element) (o : obj) :
  _element (this w) = Some e → elems w !! e = Some el →
  _data (this w) = Some d → objs w !! d = Some o →
  tune ∈ alignment_names →
  Dist._toggleTune (VString tune) w = (Normal tt,
    World (this w)
      (<[d := <["text" := VString (innerHTML el)]>
                (<["alignment" := VString tune]> (<["text" := VString (innerHTML el)]> o))]>
         (objs w))
      (<[e := with_classList el
                (token_append
                   (token_remove (token_remove (token_remove (classList el) "left") "center")
                      "right")
                   tune)]> (elems w)) (reads_back w)).
Proof.
  intros He Hel Hd Ho Htune. unfold Dist._toggleTune, bind.
  rewrite (get_data_eq w e d el o) by assumption.
  unfold set_prop at 1. unfold bind, gets, deref, ret, modify. simpl.
  rewrite lookup_insert_eq. simpl. rewrite insert_insert_eq.
  unfold bind, gets. simpl. rewrite He. simpl.
  rewrite (classList_remove_eq _ e el) by (simpl; auto).
  simpl. rewrite He. simpl.
  erewrite (classList_remove_eq _ e) by (simpl; first [apply lookup_insert_eq | reflexivity]).
  simpl. rewrite He, insert_insert_eq. simpl.
  erewrite (classList_remove_eq _ e) by (simpl; first [apply lookup_insert_eq | reflexivity]).
  simpl. rewrite He, insert_insert_eq. simpl.
  erewrite (get_data_eq _ e d); simpl;
    [| eassumption | apply lookup_insert_eq | eassumption | apply lookup_insert_eq].
  simpl. rewrite insert_insert_eq.
  unfold get_prop, bind, gets, deref, ret. simpl.
  rewrite lookup_insert_eq. simpl.
  rewrite obj_get_insert_ne by discriminate. rewrite obj_get_insert_eq. simpl.
  erewrite (classList_add_eq _ e)
    by (simpl; first [apply lookup_insert_eq | apply alignment_name_token; assumption]).
  simpl. rewrite insert_insert_eq. reflexivity.
Qed.

(** The bundle's [_toggleTune] does what the source's misses: for each of
    the three names it returns, stores the name, and leaves on the owned
    element exactly that one alignment class; the other classes stay. *)
Lemma Dist_toggleTune_sets_class (w : world) (tune : string) :
  constructed w → tune ∈ alignment_names →
  ∃ (w' : world) (el el' : element),
    Dist._toggleTune (VString tune) w = (Normal tt, w') ∧
    stored "alignment" w' = Some (VString tune) ∧
    owned_element w = Some el ∧ owned_element w' = Some el' ∧
    alignment_classes el' = [tune] ∧
    (∀ c, c ∉ alignment_names → c ∈ classList el' ↔ c ∈ classList el).
Proof.
  intros Hc Htune.
  destruct (constructed_inv w Hc) as (d & o & e & el & Hd & Ho & He & Hel).
  eexists. exists el. eexists.
  split; [apply (Dist_toggleTune_eq w tune e d el o); assumption|].
  unfold stored, stored_record, owned_element. simpl.
  rewrite Hd, He. simpl. rewrite !lookup_insert_eq. simpl.
  rewrite obj_get_insert_ne by discriminate. rewrite obj_get_insert_eq.
  split; [reflexivity|]. split; [assumption|]. split; [reflexivity|].
  unfold alignment_classes, alignment_classes_of. simpl.
  pose proof (removed_all_alignments (classList el)) as Hrm.
  unfold alignment_classes_of in Hrm.
  split.
  - unfold token_append. case_bool_decide as Hin.
    + exfalso.
      assert (Hin' : tune ∈ filter (λ c, c ∈ alignment_names)
                (token_remove (token_remove (token_remove (classList el) "left") "center")
                   "right")).
      { apply list_elem_of_filter. auto. }
      rewrite Hrm in Hin'. apply elem_of_nil in Hin'. exact Hin'.
    + rewrite filter_app, Hrm. simpl.
      rewrite filter_cons_True by assumption. reflexivity.
  - intros c Hn. rewrite <- (removed_alignments_keep_others (classList el) c Hn).
    unfold token_append. case_bool_decide; [reflexivity|].
    rewrite elem_of_app, list_elem_of_singleton. split; [|auto].
    intros [H' | ->]; [exact H'| contradiction].
Qed.

(** The bundle's constructor never returns: its [drawView] reads
    [this._element.classList] while [this._element] is still [undefined]. *)
Lemma Dist_constructor_throws (data config : obj) (a : Api)
    (os : gmap loc (gmap string value)) (es : gmap loc element) (rb : string → string) :
  ∃ (x : exn) (w : world),
    Dist.constructor data config a (World blank_instance os es rb) = (Throw x, w).
Proof.
  unfold Dist.constructor, Dist.drawView, new_object, createElement,
    classList_add, set_contentEditable, set_dataset, addEventListener,
    get_element, put_element, lift_tokens, set_this,
    bind, gets, deref, ret, modify, throw.
  simpl. rewrite !lookup_insert_eq. simpl.
  destruct (DOMTokenList_add _ _) as [x | cl]; simpl.
  - eauto.
  - repeat (rewrite ?lookup_insert_eq, ?insert_insert_eq; simpl). eauto.
Qed.

(** ** The alignment invariant *)

Lemma alignment_ok_inv (w : world) :
  alignment_ok w →
  ∃ d o, _data (this w) = Some d ∧ objs w !! d = Some o ∧
         is_alignment (obj_get o "alignment").
Proof.
  unfold alignment_ok, stored, stored_record.
  intros (v & Hv & Hal).
  destruct (_data (this w)) as [d|]; [|discriminate].
  simpl in Hv. destruct (objs w !! d) as [o|] eqn:Ho; [|discriminate].
  simpl in Hv. injection Hv as <-. eauto.
Qed.

Lemma alignment_ok_intro (w : world) (d : loc) (o : obj) :
  _data (this w) = Some d → objs w !! d = Some o →
  is_alignment (obj_get o "alignment") → alignment_ok w.
Proof.
  intros Hd Ho Hal. exists (obj_get o "alignment"). split; [|assumption].
  unfold stored, stored_record. rewrite Hd. simpl. rewrite Ho. reflexivity.
Qed.

Lemma get_data_throw (w : world) :
  owned_element w = None → get_data w = (Throw TypeError, w).
Proof.
  unfold owned_element, get_data, get_innerHTML, get_element, bind, gets, deref, ret, throw.
  destruct (_element (this w)) as [e|]; simpl; [|reflexivity].
  intros ->. reflexivity.
Qed.

Lemma owned_element_inv (w : world) (el : element) :
  owned_element w = Some el → ∃ e, _element (this w) = Some e ∧ elems w !! e = Some el.
Proof.
  unfold owned_element. destruct (_element (this w)) as [e|]; [|discriminate].
  simpl. eauto.
Qed.

Lemma obj_get_synced_alignment (v v' : value) (o : obj) :
  obj_get (<["text" := v]> (∅ : obj) ∪ <["text" := v']> o) "alignment"
    = obj_get o "alignment".
Proof.
  unfold obj_get. rewrite patch_text_other by discriminate.
  rewrite lookup_insert_ne by discriminate. reflexivity.
Qed.

Lemma settings_name_is_alignment (index : nat) (tune : Tune) :
  settings !! index = Some tune → is_alignment (VString (name tune)).
Proof.
  unfold is_alignment.
  destruct index as [|[|[|n]]]; simpl; intros H; try discriminate H;
    injection H as <-; simpl; auto.
Qed.

Lemma after_read_ok (w : world) : alignment_ok w → alignment_ok (get_data w).2.
Proof.
  intros Hok. destruct (alignment_ok_inv w Hok) as (d & o & Hd & Ho & Hal).
  destruct (owned_element w) as [el|] eqn:Hown.
  - destruct (owned_element_inv w el Hown) as (e & He & Hel).
    rewrite (get_data_eq w e d el o) by assumption. simpl.
    apply (alignment_ok_intro _ d (<["text" := VString (innerHTML el)]> o));
      [assumption | apply lookup_insert_eq |].
    rewrite obj_get_insert_ne by discriminate. assumption.
  - rewrite get_data_throw by assumption. exact Hok.
Qed.

Lemma after_merge_ok (w : world) (data : obj) :
  alignment_ok w → alignment_ok (merge data w).2.
Proof.
  intros Hok. destruct (alignment_ok_inv w Hok) as (d & o & Hd & Ho & Hal).
  destruct (owned_element w) as [el|] eqn:Hown.
  - destruct (owned_element_inv w el Hown) as (e & He & Hel).
    rewrite (merge_eq w data e d el o) by assumption. simpl.
    eapply (alignment_ok_intro _ d); [reflexivity | apply lookup_insert_eq |].
    rewrite obj_get_synced_alignment. assumption.
  - unfold merge, bind. rewrite get_data_throw by assumption. exact Hok.
Qed.

Lemma after_save_ok (w : world) (toolsContent : loc) :
  alignment_ok w → alignment_ok (save toolsContent w).2.
Proof.
  intros Hok. destruct (alignment_ok_inv w Hok) as (d & o & Hd & Ho & Hal).
  destruct (owned_element w) as [el|] eqn:Hown.
  - destruct (owned_element_inv w el Hown) as (e & He & Hel).
    destruct (elems w !! toolsContent) as [cel|] eqn:Hc.
    + rewrite (save_eq w toolsContent e d cel el o) by assumption. simpl.
      eapply (alignment_ok_intro _ d); [assumption | apply lookup_insert_eq |].
      rewrite obj_get_synced_alignment. assumption.
    + unfold save, bind. rewrite (get_data_eq w e d el o) by assumption.
      unfold get_innerHTML, get_element, bind, gets, deref, throw. simpl.
      rewrite Hc. simpl.
      eapply (alignment_ok_intro _ d); [assumption | apply lookup_insert_eq |].
      rewrite obj_get_insert_ne by discriminate. assumption.
  - unfold save, bind. rewrite get_data_throw by assumption. exact Hok.
Qed.

Lemma after_onPaste_ok (w : world) (event : PasteEvent) :
  alignment_ok w → alignment_ok (onPaste event w).2.
Proof.
  intros Hok. destruct (alignment_ok_inv w Hok) as (d & o & Hd & Ho & Hal).
  destruct (elems w !! detail_data event) as [pel|] eqn:Hp.
  - destruct (owned_element w) as [el|] eqn:Hown.
    + destruct (owned_element_inv w el Hown) as (e & He & Hel).
      rewrite (onPaste_eq w event e d pel el o) by assumption. simpl.
      eapply (alignment_ok_intro _ d); [reflexivity | apply lookup_insert_eq |].
      rewrite obj_get_synced_alignment. assumption.
    + unfold onPaste, bind. rewrite (get_innerHTML_eq w _ pel) by assumption.
      rewrite get_data_throw by assumption. exact Hok.
  - unfold onPaste, bind, get_innerHTML, get_element, bind, gets, deref, throw.
    rewrite Hp. exact Hok.
Qed.

Lemma after_settings_click_ok (w : world) (index : nat) (elements : list loc) :
  alignment_ok w → alignment_ok (settings_click index elements w).2.
Proof.
  intros Hok. destruct (alignment_ok_inv w Hok) as (d & o & Hd & Ho & Hal).
  unfold settings_click, bind.
  destruct (settings !! index) as [tune|] eqn:Ht; simpl; [|exact Hok].
  destruct (owned_element w) as [el|] eqn:Hown.
  - destruct (owned_element_inv w el Hown) as (e & He & Hel).
    rewrite (_toggleTune_eq w _ e d el o) by assumption. simpl.
    eapply (alignment_ok_intro _ d); [assumption | apply lookup_insert_eq |].
    rewrite obj_get_insert_eq. apply (settings_name_is_alignment index). assumption.
  - unfold _toggleTune, bind. rewrite get_data_throw by assumption. exact Hok.
Qed.

(** C4, as the claim states it, fails: with no alignment in the data and
    [config.defaultAlignment = "justify"] the constructor returns and the
    stored alignment is ["justify"]. *)
Lemma alignment_invariant_counterexample :
  ¬ (∀ (data config : obj) (a : Api)
       (os : gmap loc (gmap string value)) (es : gmap loc element) (rb : string → string) (w : world),
       new_Paragraph data config a os es rb = (Normal tt, w) → alignment_ok w).
Proof.
  intros H.
  assert (Hnew : new_Paragraph ∅ justify_config test_api ∅ ∅ example_reads_back = (Normal tt, justify_world))
    by (vm_compute; reflexivity).
  destruct (H _ _ _ _ _ _ _ Hnew) as (v & Hv & Hal).
  vm_compute in Hv. injection Hv as <-.
  destruct Hal as [Hal | [Hal | Hal]]; discriminate Hal.
Qed.

(** C4, amended: after construction the stored alignment is one of the three
    names whenever [data.alignment] is one of them, or
    [config.defaultAlignment] is falsy (absent, [undefined], ...) or is itself
    one of them; and every operation (merge, onPaste, save, a settings click,
    reading [data]) keeps it one of the three names, whether the operation
    returns or throws. *)
Theorem alignment_invariant :
  (∀ (data config : obj) (a : Api)
     (os : gmap loc (gmap string value)) (es : gmap loc element) (rb : string → string),
     check_token (to_string (styles_block (styles a))) = None →
     is_alignment (obj_get data "alignment") ∨
     to_boolean (obj_get config "defaultAlignment") = false ∨
     is_alignment (obj_get config "defaultAlignment") →
     ∃ w : world, new_Paragraph data config a os es rb = (Normal tt, w) ∧ alignment_ok w) ∧
  (∀ (op : operation) (w : world), alignment_ok w → alignment_ok (after op w)).
Proof.
  split.
  - intros data config a os es rb Hblk Hin.
    pose proof (new_Paragraph_eq data config a os es rb Hblk) as Hnew.
    match type of Hnew with _ = (_, ?W) => set (w := W) in * end.
    exists w. split; [exact Hnew|].
    destruct (alignment_stored_after_new _ _ _ _ _ _ _ Hnew Hblk) as [Hst _].
    exists (resolve_alignment data config). split; [exact Hst|].
    destruct (resolve_alignment_cases data config) as (H1 & H2 & H3).
    destruct (includes (Object_values ALIGNMENTS) (obj_get data "alignment")) eqn:Hinc.
    + apply is_alignment_includes in Hinc. rewrite H1; assumption.
    + assert (Hn : ¬ is_alignment (obj_get data "alignment")).
      { rewrite is_alignment_includes, Hinc. discriminate. }
      destruct Hin as [Hd | [Hf | Hc]]; [contradiction | |].
      * rewrite H3 by assumption. left. reflexivity.
      * rewrite H2; [assumption | assumption | apply is_alignment_truthy; assumption].
  - intros op w Hok. destruct op; simpl.
    + apply after_merge_ok; assumption.
    + apply after_onPaste_ok; assumption.
    + apply after_save_ok; assumption.
    + apply after_settings_click_ok; assumption.
    + apply after_read_ok; assumption.
Qed.

Lemma alignment_invariant_witness :
  (∃ w : world,
     new_Paragraph bogus_data center_config test_api ∅ ∅ example_reads_back = (Normal tt, w) ∧ alignment_ok w) ∧
  alignment_ok (after (Op_settings_click 0 []) example_world).
Proof.
  destruct alignment_invariant as [Hnew Hops].
  split.
  - apply Hnew.
    + vm_compute. reflexivity.
    + right. right. right. left. reflexivity.
  - apply Hops. exists (VString "right"). split; [vm_compute; reflexivity|].
    right. right. reflexivity.
Defined.

(** ** onKeyUp *)

(** Key codes other than Backspace and Delete are ignored. *)
Lemma onKeyUp_other_key (textContent_of : string → string) (code : value) (w : world) :
  code ≠ VString "Backspace" → code ≠ VString "Delete" →
  onKeyUp textContent_of code w = (Normal tt, w).
Proof.
  intros Hb Hd. unfold onKeyUp, strict_ne, strict_eq.
  rewrite !bool_decide_eq_false_2 by assumption. reflexivity.
Qed.

(** * Further properties of the class *)

(** ** The data accessor *)

Lemma get_data_normal_inv (w w1 : world) (d : loc) :
  get_data w = (Normal d, w1) →
  ∃ e el o, _element (this w) = Some e ∧ elems w !! e = Some el ∧
            _data (this w) = Some d ∧ objs w !! d = Some o ∧
            w1 = World (this w)
                   (<[d := <["text" := VString (innerHTML el)]> o]> (objs w)) (elems w) (reads_back w).
Proof.
  unfold get_data, get_innerHTML, get_element, set_prop, bind, gets, deref, ret, modify, throw.
  destruct (_element (this w)) as [e|] eqn:He; simpl; [|discriminate].
  destruct (elems w !! e) as [el|] eqn:Hel; simpl; [|discriminate].
  destruct (_data (this w)) as [d'|] eqn:Hd; simpl; [|discriminate].
  destruct (objs w !! d') as [o|] eqn:Ho; simpl; [|discriminate].
  intros H. injection H as <- <-. exists e, el, o. auto.
Qed.

(** X1: a read of [data] that returns changes only the [text] of the stored
    record, and a second read right after it changes nothing at all. *)
Theorem get_data_idempotent (w w1 : world) (d : loc) :
  get_data w = (Normal d, w1) →
  get_data w1 = (Normal d, w1) ∧
  this w1 = this w ∧ elems w1 = elems w ∧
  (∀ l, l ≠ d → objs w1 !! l = objs w !! l) ∧
  (∀ o o1 k, objs w !! d = Some o → objs w1 !! d = Some o1 → k ≠ "text" → o1 !! k = o !! k).
Proof.
  intros H.
  destruct (get_data_normal_inv w w1 d H) as (e & el & o & He & Hel & Hd & Ho & ->).
  split.
  { erewrite (get_data_eq _ e d el); simpl;
      [| eassumption | eassumption | eassumption | apply lookup_insert_eq].
    rewrite !insert_insert_eq. reflexivity. }
  simpl. repeat split.
  - intros l Hl. apply lookup_insert_ne. congruence.
  - intros o0 o1 k Ho0 Ho1 Hk. rewrite lookup_insert_eq in Ho1.
    injection Ho1 as <-. rewrite Ho in Ho0. injection Ho0 as <-.
    apply lookup_insert_ne. congruence.
Qed.

Lemma get_data_idempotent_witness :
  ∃ (d : loc) (w1 : world),
    get_data example_world = (Normal d, w1) ∧ get_data w1 = (Normal d, w1).
Proof.
  eexists. eexists. split; [vm_compute; reflexivity|].
  apply (get_data_idempotent example_world). vm_compute. reflexivity.
Defined.

(** X2: assigning [null] (or [undefined]) to [data] never throws on an
    instance that has its element: the instance gets a new, empty record (the
    old one is left as it was), and the element's markup becomes empty while
    its classes stay. *)
Theorem set_data_null_resets (w : world) (el : element) :
  owned_element w = Some el →
  ∃ (d : loc) (w' : world),
    set_data None w = (Normal tt, w') ∧
    (d ∉ dom (objs w)) ∧
    _data (this w') = Some d ∧ objs w' !! d = Some ∅ ∧
    (∀ l, l ≠ d → objs w' !! l = objs w !! l) ∧
    owned_element w' = Some (with_innerHTML el "") ∧
    stored "alignment" w' = Some VUndefined.
Proof.
  intros Hown. destruct (owned_element_inv w el Hown) as (e & He & Hel).
  exists (fresh (dom (objs w))). eexists.
  split.
  { unfold set_data, new_object, set_this, get_prop, set_innerHTML, get_element,
      put_element, bind, gets, deref, ret, modify.
    simpl. rewrite He, lookup_insert_eq. simpl. rewrite Hel. reflexivity. }
  simpl. split; [apply is_fresh|].
  split; [reflexivity|]. split; [apply lookup_insert_eq|].
  split; [intros l Hl; apply lookup_insert_ne; congruence|].
  unfold owned_element, stored, stored_record. simpl.
  rewrite He. simpl. rewrite !lookup_insert_eq. split; reflexivity.
Qed.

Lemma set_data_null_resets_witness :
  ∃ (d : loc) (w' : world),
    set_data None example_world = (Normal tt, w') ∧
    (d ∉ dom (objs example_world)) ∧
    _data (this w') = Some d ∧ objs w' !! d = Some ∅ ∧
    (innerHTML <$> owned_element w') = Some "".
Proof.
  destruct (set_data_null_resets example_world
              (with_innerHTML (drawn_element test_api (VString "")) "<b>hi</b>"))
    as (d & w' & Hrun & Hfresh & Hd & Ho & _ & Hown & _).
  - vm_compute. reflexivity.
  - exists d, w'. rewrite Hown. auto.
Defined.

(** X3: assigning an object to [data] and reading [data] back returns that
    object.  Its [text] is then the element's markup: what reads back after
    the object's [text] (or the empty string, when that is absent or falsy)
    was written.  So the object is unchanged when its [text] is a string
    that reads back as written, and gets the text [""] when it had none.  No
    other object changes, and none of the previous record's properties is
    carried over. *)
Theorem set_data_then_get_data (w : world) (l : loc) (o : obj) (el : element) :
  owned_element w = Some el → objs w !! l = Some o →
  ∃ (w1 w2 : world),
    set_data (Some l) w = (Normal tt, w1) ∧
    get_data w1 = (Normal l, w2) ∧
    _data (this w2) = Some l ∧
    objs w2 !! l =
      Some (<["text" := VString (markup_after_write (reads_back w)
                                   (to_string (js_or (obj_get o "text") (VString ""))))]> o) ∧
    (∀ t, o !! "text" = Some (VString t) → markup_after_write (reads_back w) t = t →
          objs w2 = objs w) ∧
    (o !! "text" = None → objs w2 !! l = Some (<["text" := VString ""]> o)) ∧
    (∀ l', l' ≠ l → objs w2 !! l' = objs w !! l') ∧
    owned_element w2 =
      Some (with_innerHTML el
              (markup_after_write (reads_back w)
                 (to_string (js_or (obj_get o "text") (VString ""))))).
Proof.
  intros Hown Ho. destruct (owned_element_inv w el Hown) as (e & He & Hel).
  eexists. eexists.
  split; [apply (set_data_eq w e l el o); assumption|].
  split.
  { erewrite (get_data_eq _ e l); simpl;
      [reflexivity | eassumption | apply lookup_insert_eq | reflexivity | eassumption]. }
  simpl. split; [reflexivity|]. split; [apply lookup_insert_eq|].
  split; [|split; [|split]].
  - intros t Ht Hst. unfold obj_get. rewrite Ht. simpl.
    rewrite to_string_or_empty, Hst. rewrite (insert_id o) by assumption.
    apply insert_id. assumption.
  - intros Hn. rewrite lookup_insert_eq. unfold obj_get. rewrite Hn. reflexivity.
  - intros l' Hl. apply lookup_insert_ne. congruence.
  - unfold owned_element. simpl. rewrite He. simpl. apply lookup_insert_eq.
Qed.

Lemma set_data_then_get_data_witness :
  ∃ (w1 w2 : world),
    set_data (Some 1%positive) example_world = (Normal tt, w1) ∧
    get_data w1 = (Normal 1%positive, w2) ∧
    objs w2 !! 1%positive = Some (<["text" := VString ""]> ∅) ∧
    stored "alignment" w2 = Some VUndefined.
Proof.
  destruct (set_data_then_get_data example_world 1%positive ∅
              (with_innerHTML (drawn_element test_api (VString "")) "<b>hi</b>"))
    as (w1 & w2 & Hset & Hget & Hd & _ & _ & Hnone & _).
  - vm_compute. reflexivity.
  - vm_compute. reflexivity.
  - exists w1, w2. split; [exact Hset|]. split; [exact Hget|].
    assert (Ho : objs w2 !! 1%positive = Some (<["text" := VString ""]> ∅))
      by (apply Hnone; reflexivity).
    split; [exact Ho|].
    unfold stored, stored_record. rewrite Hd. simpl. rewrite Ho. reflexivity.
Defined.

(** ** onKeyUp *)

(** X4: [onKeyUp] touches nothing but the markup of the owned element, and
    that only in one case: the key is Backspace or Delete and the element's
    text content is empty; then the markup becomes the empty string.  For
    every other key, and when there is text left, the world stays as it
    is. *)
Theorem onKeyUp_clears_only_empty (textContent_of : string → string) (code : value)
    (w : world) (e : loc) (el : element) :
  _element (this w) = Some e → elems w !! e = Some el →
  (code ≠ VString "Backspace" → code ≠ VString "Delete" →
     onKeyUp textContent_of code w = (Normal tt, w)) ∧
  (code = VString "Backspace" ∨ code = VString "Delete" →
     textContent_of (innerHTML el) ≠ "" →
     onKeyUp textContent_of code w = (Normal tt, w)) ∧
  (code = VString "Backspace" ∨ code = VString "Delete" →
     textContent_of (innerHTML el) = "" →
     onKeyUp textContent_of code w =
       (Normal tt,
        World (this w) (objs w) (<[e := with_innerHTML el ""]> (elems w)) (reads_back w))).
Proof.
  intros He Hel. split; [|split].
  - apply onKeyUp_other_key.
  - intros Hcode Htext.
    unfold onKeyUp, get_textContent, set_innerHTML, get_element, bind, gets, deref, ret.
    assert (Hk : strict_ne code (VString "Backspace") && strict_ne code (VString "Delete")
                 = false) by (destruct Hcode as [-> | ->]; reflexivity).
    rewrite Hk, He. simpl. rewrite Hel. simpl.
    unfold strict_eq. rewrite bool_decide_eq_false_2 by congruence. reflexivity.
  - intros Hcode Htext.
    unfold onKeyUp, get_textContent, set_innerHTML, get_element, put_element,
      bind, gets, deref, ret, modify.
    assert (Hk : strict_ne code (VString "Backspace") && strict_ne code (VString "Delete")
                 = false) by (destruct Hcode as [-> | ->]; reflexivity).
    rewrite Hk, He. simpl. rewrite Hel. simpl. rewrite Htext. simpl.
    rewrite Hel. reflexivity.
Qed.

Lemma onKeyUp_clears_only_empty_witness :
  (innerHTML <$> owned_element br_world) = Some "<br>" ∧
  (innerHTML <$> owned_element (onKeyUp strip_tags (VString "Backspace") br_world).2)
    = Some "" ∧
  onKeyUp strip_tags (VString "Backspace") example_world = (Normal tt, example_world).
Proof.
  split; [vm_compute; reflexivity|].
  split.
  - rewrite (proj2 (proj2 (onKeyUp_clears_only_empty strip_tags (VString "Backspace")
                             br_world 1%positive
                             (with_innerHTML (drawn_element test_api (VString "")) "<br>")
                             eq_refl eq_refl)));
      [vm_compute; reflexivity | left; reflexivity | vm_compute; reflexivity].
  - apply (proj1 (proj2 (onKeyUp_clears_only_empty strip_tags (VString "Backspace")
                           example_world 1%positive
                           (with_innerHTML (drawn_element test_api (VString "")) "<b>hi</b>")
                           eq_refl eq_refl)));
      [left; reflexivity | vm_compute; discriminate].
Defined.

(** ** The settings click listener *)

(** X5: on a built instance the click listener of a settings button stores
    the button's name as the alignment and then throws a TypeError out of
    [_toggleTune]: its second pass is never reached, so no button's active
    marker (no element at all) is updated.  A listener with an index that has
    no setting throws before it changes anything. *)
Theorem settings_click_never_marks (w : world) (index : nat) (elements : list loc) :
  constructed w →
  (∀ tune, settings !! index = Some tune →
     ∃ w', settings_click index elements w = (Throw TypeError, w') ∧
           stored "alignment" w' = Some (VString (name tune)) ∧
           elems w' = elems w) ∧
  (settings !! index = None →
     settings_click index elements w = (Throw TypeError, w)).
Proof.
  intros Hc.
  destruct (constructed_inv w Hc) as (d & o & e & el & Hd & Ho & He & Hel).
  split.
  - intros tune Ht. eexists. unfold settings_click, bind. rewrite Ht. simpl.
    rewrite (_toggleTune_eq w _ e d el o) by assumption.
    split; [reflexivity|].
    unfold stored, stored_record. simpl. rewrite Hd. simpl.
    rewrite lookup_insert_eq. simpl. rewrite obj_get_insert_eq. auto.
  - intros Ht. unfold settings_click, bind. rewrite Ht. reflexivity.
Qed.

Lemma settings_click_never_marks_witness :
  ∃ w', settings_click 1 [] example_world = (Throw TypeError, w') ∧
        stored "alignment" w' = Some (VString "center") ∧
        elems w' = elems example_world.
Proof.
  destruct (settings_click_never_marks example_world 1 []) as [H _].
  - split; vm_compute; eexists; reflexivity.
  - destruct (H _ eq_refl) as (w' & Hrun & Hal & Hel).
    exists w'. split; [exact Hrun|]. split; [exact Hal | exact Hel].
Defined.

(** ** Construction and validation together *)

(** X6: an instance built with a configuration accepts or rejects blank
    text by the truthiness of [config.preserveBlank] alone: for a record whose
    [text] is a string, [validate] on the new instance returns [false] exactly
    when the trimmed text is empty and [config.preserveBlank] is absent or
    falsy. *)
Theorem validate_after_construction (data config : obj) (a : Api)
    (os : gmap loc (gmap string value)) (es : gmap loc element) (rb : string → string)
    (savedData : obj) (text : string) :
  check_token (to_string (styles_block (styles a))) = None →
  obj_get savedData "text" = VString text →
  ∃ (w : world) (b : bool),
    new_Paragraph data config a os es rb = (Normal tt, w) ∧
    validate savedData w = (Normal b, w) ∧
    (b = false ↔ trim text = "" ∧ to_boolean (obj_get config "preserveBlank") = false).
Proof.
  intros Hblk Ht.
  pose proof (new_Paragraph_eq data config a os es rb Hblk) as Hnew.
  match type of Hnew with _ = (_, ?W) => set (w := W) in * end.
  assert (Hpb : to_boolean (_preserveBlank (this w))
                = to_boolean (obj_get config "preserveBlank")).
  { simpl. unfold resolve_preserveBlank, strict_ne, strict_eq.
    case_bool_decide as Hu; simpl; [rewrite Hu|]; reflexivity. }
  exists w. unfold validate. rewrite Ht. unfold bind, gets, ret, strict_eq.
  rewrite Hpb.
  destruct (to_boolean (obj_get config "preserveBlank")); case_bool_decide as Htrim; simpl.
  - exists true. split; [exact Hnew|]. split; [reflexivity|].
    split; [discriminate | intros [_ H]; discriminate H].
  - exists true. split; [exact Hnew|]. split; [reflexivity|].
    split; [discriminate | intros [_ H]; discriminate H].
  - exists false. split; [exact Hnew|]. split; [reflexivity|].
    injection Htrim as Htrim. split; auto.
  - exists true. split; [exact Hnew|]. split; [reflexivity|].
    split; [discriminate | intros [H _]; congruence].
Qed.

Lemma validate_after_construction_witness :
  ∃ (w : world),
    new_Paragraph ∅ (<["preserveBlank" := VNull]> ∅) test_api ∅ ∅ example_reads_back = (Normal tt, w) ∧
    validate (<["text" := VString "   "]> ∅) w = (Normal false, w).
Proof.
  destruct (validate_after_construction ∅ (<["preserveBlank" := VNull]> ∅) test_api ∅ ∅ example_reads_back
              (<["text" := VString "   "]> ∅) "   ")
    as (w & b & Hnew & Hval & Hiff).
  - vm_compute. reflexivity.
  - vm_compute. reflexivity.
  - exists w. split; [exact Hnew|]. rewrite Hval.
    f_equal. f_equal. apply Hiff. split; vm_compute; reflexivity.
Defined.

(** ** save, merge and onPaste together with the accessor *)

(** X7: [save] writes the container's markup into the record but not into
    the owned element, so its result does not outlive the next read of
    [data]: that read puts the owned element's markup back as [text].  (When
    the container is the owned element the two agree.) *)
Theorem read_after_save_restores_markup (w : world) (toolsContent : loc)
    (container el : element) :
  constructed w → owned_element w = Some el → elems w !! toolsContent = Some container →
  ∃ (d : loc) (w1 w2 : world),
    save toolsContent w = (Normal d, w1) ∧
    stored "text" w1 = Some (VString (innerHTML container)) ∧
    owned_element w1 = Some el ∧
    get_data w1 = (Normal d, w2) ∧
    stored "text" w2 = Some (VString (innerHTML el)).
Proof.
  intros Hc Hown Hcont.
  destruct (constructed_inv w Hc) as (d & o & e & el' & Hd & Ho & He & Hel).
  assert (el' = el) as ->.
  { unfold owned_element in Hown. rewrite He in Hown. simpl in Hown. congruence. }
  exists d. eexists. eexists.
  split; [apply (save_eq w toolsContent e d container el o); assumption|].
  split.
  { unfold stored, stored_record. simpl. rewrite Hd. simpl.
    rewrite lookup_insert_eq. simpl. rewrite obj_get_patch_text. reflexivity. }
  split; [exact Hown|].
  split.
  { erewrite (get_data_eq _ e d el); simpl;
      [reflexivity | eassumption | eassumption | eassumption | apply lookup_insert_eq]. }
  unfold stored, stored_record. simpl. rewrite Hd. simpl.
  rewrite lookup_insert_eq. simpl. rewrite obj_get_insert_eq. reflexivity.
Qed.

Lemma read_after_save_restores_markup_witness :
  ∃ (d : loc) (w1 w2 : world),
    save 7%positive pasted_world = (Normal d, w1) ∧
    stored "text" w1 = Some (VString "pasted") ∧
    get_data w1 = (Normal d, w2) ∧
    stored "text" w2 = Some (VString "<b>hi</b>").
Proof.
  destruct (read_after_save_restores_markup pasted_world 7%positive
              (with_innerHTML (blank_element "P") "pasted")
              (with_innerHTML (drawn_element test_api (VString "")) "<b>hi</b>"))
    as (d & w1 & w2 & Hs & Ht & _ & Hg & Ht2).
  - split; vm_compute; eexists; reflexivity.
  - vm_compute. reflexivity.
  - vm_compute. reflexivity.
  - exists d, w1, w2. auto.
Defined.

(** X8: on every built instance [merge] returns for an incoming record
    whose [text] is absent, [undefined], [null], a boolean or a string (the
    values of the model; for a symbol or an object the conversion can throw):
    the incoming [text] is appended after conversion to a string.  A record
    with no [text] appends ["undefined"], a [null] text appends ["null"], a
    boolean appends ["true"] or ["false"]. *)
Theorem merge_appends_converted_text (w : world) (data : obj) (el : element) :
  constructed w → owned_element w = Some el →
  ∃ w' : world,
    merge data w = (Normal tt, w') ∧
    stored "text" w' = Some (VString (innerHTML el ++ to_string (obj_get data "text"))) ∧
    (data !! "text" = None →
       stored "text" w' = Some (VString (innerHTML el ++ "undefined"))) ∧
    (data !! "text" = Some VNull →
       stored "text" w' = Some (VString (innerHTML el ++ "null"))) ∧
    (data !! "text" = Some (VBool true) →
       stored "text" w' = Some (VString (innerHTML el ++ "true"))).
Proof.
  intros Hc Hown.
  destruct (constructed_inv w Hc) as (d & o & e & el' & Hd & Ho & He & Hel).
  assert (el' = el) as ->.
  { unfold owned_element in Hown. rewrite He in Hown. simpl in Hown. congruence. }
  eexists. split; [apply (merge_eq w data e d el o); assumption|].
  assert (Hst : ∀ (os : gmap loc (gmap string value)) (es : gmap loc element),
            stored "text"
              (World (with_data d (this w))
                 (<[d := <["text" := VString (innerHTML el ++ to_string (obj_get data "text"))]> ∅
                          ∪ <["text" := VString (innerHTML el)]> o]> os)
                 es (reads_back w))
            = Some (VString (innerHTML el ++ to_string (obj_get data "text")))).
  { intros os es. unfold stored, stored_record. simpl. rewrite lookup_insert_eq. simpl.
    rewrite obj_get_patch_text. reflexivity. }
  split; [apply Hst|].
  split; [|split]; intros Hn; rewrite Hst; unfold obj_get; rewrite Hn; reflexivity.
Qed.

Lemma merge_appends_converted_text_witness :
  ∃ w' : world,
    merge ∅ hello_world = (Normal tt, w') ∧
    stored "text" w' = Some (VString "Hello undefined").
Proof.
  destruct (merge_appends_converted_text hello_world ∅
              (with_innerHTML (drawn_element test_api (VString "")) "Hello "))
    as (w' & Hrun & _ & Hundef & _).
  - split; vm_compute; eexists; reflexivity.
  - vm_compute. reflexivity.
  - exists w'. split; [exact Hrun|]. apply Hundef. reflexivity.
Defined.

(** X9: [merge] and [onPaste] write the new text to the owned element, so
    afterwards the element's markup is what reads back from the record's
    [text].  A read of [data] right after either call returns the record
    with that markup as its [text]; when the text reads back as written, the
    read changes nothing. *)
Theorem merge_and_onPaste_then_read (w : world) :
  constructed w →
  (∀ data : obj,
     ∃ (d : loc) (w' w'' : world) (t : string),
       merge data w = (Normal tt, w') ∧
       stored "text" w' = Some (VString t) ∧
       (innerHTML <$> owned_element w') = Some (markup_after_write (reads_back w) t) ∧
       get_data w' = (Normal d, w'') ∧
       stored "text" w'' = Some (VString (markup_after_write (reads_back w) t)) ∧
       (markup_after_write (reads_back w) t = t → w'' = w')) ∧
  (∀ (event : PasteEvent) (pasted : element),
     elems w !! detail_data event = Some pasted →
     ∃ (d : loc) (w' w'' : world),
       onPaste event w = (Normal tt, w') ∧
       stored "text" w' = Some (VString (innerHTML pasted)) ∧
       (innerHTML <$> owned_element w')
         = Some (markup_after_write (reads_back w) (innerHTML pasted)) ∧
       get_data w' = (Normal d, w'') ∧
       stored "text" w''
         = Some (VString (markup_after_write (reads_back w) (innerHTML pasted))) ∧
       (markup_after_write (reads_back w) (innerHTML pasted) = innerHTML pasted →
          w'' = w')).
Proof.
  intros Hc.
  destruct (constructed_inv w Hc) as (d & o & e & el & Hd & Ho & He & Hel).
  assert (Hsync : ∀ t : string,
    let w' := World (with_data d (this w))
                (<[d := <["text" := VString t]> ∅ ∪ <["text" := VString (innerHTML el)]> o]>
                   (objs w))
                (<[e := with_innerHTML el (markup_after_write (reads_back w) t)]> (elems w))
                (reads_back w) in
    ∃ w'' : world,
      stored "text" w' = Some (VString t) ∧
      (innerHTML <$> owned_element w') = Some (markup_after_write (reads_back w) t) ∧
      get_data w' = (Normal d, w'') ∧
      stored "text" w'' = Some (VString (markup_after_write (reads_back w) t)) ∧
      (markup_after_write (reads_back w) t = t → w'' = w')).
  { intros t w'. subst w'. eexists.
    split.
    { unfold stored, stored_record. simpl. rewrite lookup_insert_eq. simpl.
      rewrite obj_get_patch_text. reflexivity. }
    split.
    { unfold owned_element. simpl. rewrite He. simpl. rewrite lookup_insert_eq.
      reflexivity. }
    split.
    { erewrite (get_data_eq _ e d); simpl;
        [reflexivity | eassumption | apply lookup_insert_eq | reflexivity
        | apply lookup_insert_eq]. }
    simpl. rewrite insert_insert_eq. split.
    - unfold stored, stored_record. simpl. rewrite lookup_insert_eq. simpl.
      rewrite obj_get_insert_eq. reflexivity.
    - intros ->.
      rewrite (insert_id (<["text" := VString t]> ∅ ∪ <["text" := VString (innerHTML el)]> o))
        by apply patch_text_text.
      reflexivity. }
  split.
  - intros data. destruct (Hsync (innerHTML el ++ to_string (obj_get data "text")))
      as (w'' & H1 & H2 & H3 & H4 & H5).
    exists d. eexists. exists w'', (innerHTML el ++ to_string (obj_get data "text")).
    split; [apply (merge_eq w data e d el o); assumption|].
    repeat split; assumption.
  - intros event pasted Hp. destruct (Hsync (innerHTML pasted))
      as (w'' & H1 & H2 & H3 & H4 & H5).
    exists d. eexists. exists w''.
    split; [apply (onPaste_eq w event e d pasted el o); assumption|].
    repeat split; assumption.
Qed.

Lemma merge_and_onPaste_then_read_witness :
  ∃ (d : loc) (w' : world),
    onPaste {| detail_data := 7%positive |} pasted_world = (Normal tt, w') ∧
    stored "text" w' = Some (VString "pasted") ∧
    (innerHTML <$> owned_element w') = Some "pasted" ∧
    get_data w' = (Normal d, w').
Proof.
  destruct (merge_and_onPaste_then_read pasted_world) as [_ Hp].
  - split; vm_compute; eexists; reflexivity.
  - destruct (Hp {| detail_data := 7%positive |} (with_innerHTML (blank_element "P") "pasted"))
      as (d & w' & w'' & Hrun & Ht & Hel & Hget & _ & Hsame).
    + vm_compute. reflexivity.
    + exists d, w'. split; [exact Hrun|]. split; [exact Ht|].
      split; [rewrite Hel; vm_compute; reflexivity|].
      rewrite Hget. rewrite Hsame; [reflexivity | vm_compute; reflexivity].
Defined.

Lemma string_append_assoc (a b c : string) : ((a ++ b) ++ c = a ++ (b ++ c))%string.
Proof.
  induction a as [|x a IH]; [reflexivity|].
  change (String x ((a ++ b) ++ c) = String x (a ++ (b ++ c)))%string.
  f_equal. exact IH.
Qed.

(** X10: merging two records one after the other leaves exactly the world
    that one merge of their concatenated texts leaves, provided the text the
    first merge writes to the element reads back as written. *)
Theorem merge_twice_is_merge_once (w : world) (a b ab : obj) (sa sb : string) (el : element) :
  constructed w → owned_element w = Some el →
  obj_get a "text" = VString sa → obj_get b "text" = VString sb →
  obj_get ab "text" = VString (sa ++ sb) →
  markup_after_write (reads_back w) (innerHTML el ++ sa) = innerHTML el ++ sa →
  ∃ (w1 w2 : world),
    merge a w = (Normal tt, w1) ∧ merge b w1 = (Normal tt, w2) ∧
    merge ab w = (Normal tt, w2).
Proof.
  intros Hc Hown Ha Hb Hab Hst.
  destruct (constructed_inv w Hc) as (d & o & e & el' & Hd & Ho & He & Hel).
  assert (el' = el) as ->.
  { unfold owned_element in Hown. rewrite He in Hown. simpl in Hown. congruence. }
  eexists. eexists.
  split; [apply (merge_eq w a e d el o); assumption|].
  split.
  { erewrite (merge_eq _ b e d); simpl;
      [reflexivity | eassumption | apply lookup_insert_eq | reflexivity
      | apply lookup_insert_eq]. }
  rewrite (merge_eq w ab e d el o) by assumption.
  rewrite Ha, Hb, Hab. simpl. rewrite Hst.
  rewrite !insert_insert_eq, string_append_assoc.
  f_equal. f_equal. f_equal.
  apply map_eq. intros k. destruct (decide (k = "text")) as [-> | Hk].
  - rewrite !patch_text_text. reflexivity.
  - rewrite !patch_text_other by assumption.
    rewrite !lookup_insert_ne by congruence.
    rewrite patch_text_other by assumption.
    rewrite lookup_insert_ne by congruence. reflexivity.
Qed.

Lemma merge_twice_is_merge_once_witness :
  ∃ (w1 w2 : world),
    merge (<["text" := VString "Wor"]> ∅) hello_world = (Normal tt, w1) ∧
    merge (<["text" := VString "ld"]> ∅) w1 = (Normal tt, w2) ∧
    merge (<["text" := VString "World"]> ∅) hello_world = (Normal tt, w2).
Proof.
  apply (merge_twice_is_merge_once hello_world _ _ _ "Wor" "ld"
           (with_innerHTML (drawn_element test_api (VString "")) "Hello ")).
  - split; vm_compute; eexists; reflexivity.
  - vm_compute. reflexivity.
  - vm_compute. reflexivity.
  - vm_compute. reflexivity.
  - vm_compute. reflexivity.
  - vm_compute. reflexivity.
Defined.

(** ** Saving and building again *)

(** X11: what [save] returns builds the same block again.  When the stored
    alignment is one of the three names, a new instance constructed from the
    saved record (with any configuration) stores the same alignment and, as
    text, the markup that was saved; its element holds what reads back after
    that markup was written, which is the saved markup itself when that
    reads back as written. *)
Theorem save_then_construct_roundtrip (w : world) (toolsContent : loc) (container : element)
    (config : obj) (a : Api) (os : gmap loc (gmap string value)) (es : gmap loc element) (rb : string → string) :
  constructed w → alignment_ok w →
  elems w !! toolsContent = Some container →
  check_token (to_string (styles_block (styles a))) = None →
  ∃ (d : loc) (w1 w2 : world) (saved : obj),
    save toolsContent w = (Normal d, w1) ∧ objs w1 !! d = Some saved ∧
    new_Paragraph saved config a os es rb = (Normal tt, w2) ∧
    stored "alignment" w2 = stored "alignment" w ∧
    stored "text" w2 = Some (VString (innerHTML container)) ∧
    (innerHTML <$> owned_element w2)
      = Some (markup_after_write rb (innerHTML container)) ∧
    (markup_after_write rb (innerHTML container) = innerHTML container →
       (innerHTML <$> owned_element w2) = Some (innerHTML container)).
Proof.
  intros Hc Hok Hcont Hblk.
  destruct (constructed_inv w Hc) as (d & o & e & el & Hd & Ho & He & Hel).
  destruct (alignment_ok_inv w Hok) as (d' & o' & Hd' & Ho' & Hal).
  assert (d' = d) as -> by congruence. assert (o' = o) as -> by congruence.
  set (saved := <["text" := VString (innerHTML container)]> ∅
                  ∪ <["text" := VString (innerHTML el)]> o).
  pose proof (new_Paragraph_eq saved config a os es rb Hblk) as Hnew.
  match type of Hnew with _ = (_, ?W) => set (w2 := W) in * end.
  assert (Hsa : obj_get saved "alignment" = obj_get o "alignment")
    by apply obj_get_synced_alignment.
  assert (Hst : obj_get saved "text" = VString (innerHTML container))
    by apply obj_get_patch_text.
  exists d. eexists. exists w2, saved.
  split; [apply (save_eq w toolsContent e d container el o); assumption|].
  split; [simpl; apply lookup_insert_eq|].
  split; [exact Hnew|].
  destruct (alignment_stored_after_new _ _ _ _ _ _ _ Hnew Hblk) as [Hra Hrt].
  split; [|split].
  - rewrite Hra. destruct (resolve_alignment_cases saved config) as (H1 & _).
    rewrite H1 by (rewrite Hsa; exact Hal).
    unfold stored, stored_record. rewrite Hd. simpl. rewrite Ho. simpl. congruence.
  - rewrite Hrt, Hst, js_or_string_empty. reflexivity.
  - assert (Hm : (innerHTML <$> owned_element w2)
                 = Some (markup_after_write rb (innerHTML container))).
    { unfold owned_element. simpl. rewrite lookup_insert_eq. simpl.
      rewrite Hst, !js_or_string_empty. reflexivity. }
    split; [exact Hm|]. intros Heq. rewrite Hm, Heq. reflexivity.
Qed.

Lemma save_then_construct_roundtrip_witness :
  ∃ (d : loc) (w1 w2 : world) (saved : obj),
    save 1%positive example_world = (Normal d, w1) ∧ objs w1 !! d = Some saved ∧
    new_Paragraph saved center_config test_api ∅ ∅ example_reads_back = (Normal tt, w2) ∧
    stored "alignment" w2 = Some (VString "right") ∧
    stored "text" w2 = Some (VString "<b>hi</b>").
Proof.
  destruct (save_then_construct_roundtrip example_world 1%positive
              (with_innerHTML (drawn_element test_api (VString "")) "<b>hi</b>")
              center_config test_api ∅ ∅ example_reads_back)
    as (d & w1 & w2 & saved & Hs & Ho & Hn & Ha & Ht & _).
  - split; vm_compute; eexists; reflexivity.
  - exists (VString "right"). split; [vm_compute; reflexivity | right; right; reflexivity].
  - vm_compute. reflexivity.
  - vm_compute. reflexivity.
  - exists d, w1, w2, saved. rewrite Ha. auto.
Defined.

(** ** Construction with an unusable block class *)

(** X12: when the host's block class is no usable class token (the empty
    string, or a string with white space) the constructor throws out of
    [drawView], with the error [classList.add] raises; the instance is left
    without its element and without alignment or text, so no later call can
    read [data]. *)
Theorem constructor_rejects_unusable_block_class (data config : obj) (a : Api)
    (os : gmap loc (gmap string value)) (es : gmap loc element) (rb : string → string) (x : exn) :
  check_token (to_string (styles_block (styles a))) = Some x →
  ∃ w : world,
    new_Paragraph data config a os es rb = (Throw x, w) ∧
    _element (this w) = None ∧
    stored_record w = Some ∅ ∧
    get_data w = (Throw TypeError, w).
Proof.
  intros Hblk. eexists. split.
  { unfold new_Paragraph, constructor, drawView, new_object, createElement,
      classList_add, get_element, put_element, lift_tokens, set_this,
      bind, gets, deref, ret, modify, throw.
    simpl. rewrite !lookup_insert_eq. simpl.
    unfold DOMTokenList_add. simpl. rewrite Hblk. reflexivity. }
  simpl. split; [reflexivity|].
  split; [unfold stored_record; simpl; apply lookup_insert_eq|].
  apply get_data_throw. reflexivity.
Qed.

Lemma constructor_rejects_unusable_block_class_witness :
  ∃ w : world,
    new_Paragraph example_data ∅ empty_block_api ∅ ∅ example_reads_back = (Throw SyntaxError, w) ∧
    _element (this w) = None.
Proof.
  destruct (constructor_rejects_unusable_block_class example_data ∅ empty_block_api ∅ ∅ example_reads_back
              SyntaxError) as (w & Hrun & He & _).
  - vm_compute. reflexivity.
  - exists w. auto.
Defined.

(** ** The built bundle *)

Lemma filter_token_append_other (P : string → Prop) `{∀ c, Decision (P c)}
    (cl : list string) (t : string) :
  ¬ P t → filter P (token_append cl t) = filter P cl.
Proof.
  intros Hn. unfold token_append. case_bool_decide; [reflexivity|].
  rewrite filter_app, filter_cons_False by assumption.
  simpl. apply app_nil_r.
Qed.

Lemma filter_token_remove_other (P : string → Prop) `{∀ c, Decision (P c)}
    (cl : list string) (t : string) :
  ¬ P t → filter P (token_remove cl t) = filter P cl.
Proof.
  intros Hn. unfold token_remove. induction cl as [|c cl IH]; [reflexivity|].
  rewrite filter_cons. destruct (decide (c ≠ t)) as [Hc | Hc].
  - rewrite !filter_cons. destruct (decide (P c)); [f_equal|]; exact IH.
  - assert (c = t) as -> by (destruct (decide (c = t)); [assumption | contradiction]).
    rewrite filter_cons_False by assumption. exact IH.
Qed.

(** X13: the bundle's [_toggleTune], called with one of the three names
    on an instance that has its record and its element, returns, stores the
    name, and leaves on the owned element that one alignment class and no
    other; the classes that are no alignment names stay, in their order. *)
Theorem Dist_toggleTune_one_alignment_class (w : world) (tune : string) (el : element) :
  constructed w → owned_element w = Some el → tune ∈ alignment_names →
  ∃ (w' : world) (el' : element),
    Dist._toggleTune (VString tune) w = (Normal tt, w') ∧
    stored "alignment" w' = Some (VString tune) ∧
    owned_element w' = Some el' ∧
    alignment_classes el' = [tune] ∧
    filter (λ c, c ∉ alignment_names) (classList el')
      = filter (λ c, c ∉ alignment_names) (classList el).
Proof.
  intros Hc Hown Htune.
  destruct (constructed_inv w Hc) as (d & o & e & el0 & Hd & Ho & He & Hel).
  assert (el0 = el) as ->.
  { unfold owned_element in Hown. rewrite He in Hown. simpl in Hown. congruence. }
  eexists. eexists.
  split; [apply (Dist_toggleTune_eq w tune e d el o); assumption|].
  unfold stored, stored_record, owned_element. simpl.
  rewrite Hd, He. simpl. rewrite !lookup_insert_eq. simpl.
  rewrite obj_get_insert_ne by discriminate. rewrite obj_get_insert_eq.
  split; [reflexivity|]. split; [reflexivity|].
  pose proof (removed_all_alignments (classList el)) as Hrm.
  unfold alignment_classes, alignment_classes_of in *. simpl.
  split.
  - unfold token_append. case_bool_decide as Hin.
    + exfalso.
      assert (Hin' : tune ∈ filter (λ c, c ∈ alignment_names)
                (token_remove (token_remove (token_remove (classList el) "left") "center")
                   "right")) by (apply list_elem_of_filter; auto).
      rewrite Hrm in Hin'. apply elem_of_nil in Hin'. exact Hin'.
    + rewrite filter_app, Hrm. simpl.
      rewrite filter_cons_True by assumption. reflexivity.
  - rewrite filter_token_append_other by (intros Hn; apply Hn; exact Htune).
    rewrite !filter_token_remove_other;
      [reflexivity | | |]; intros Hn; apply Hn; rewrite alignment_names_eq;
      rewrite !elem_of_cons; auto.
Qed.

Lemma Dist_toggleTune_one_alignment_class_witness :
  ∃ (w' : world) (el' : element),
    Dist._toggleTune (VString "center") example_world = (Normal tt, w') ∧
    stored "alignment" w' = Some (VString "center") ∧
    owned_element w' = Some el' ∧
    alignment_classes el' = ["center"].
Proof.
  destruct (Dist_toggleTune_one_alignment_class example_world "center"
              (with_innerHTML (drawn_element test_api (VString "")) "<b>hi</b>"))
    as (w' & el' & Hrun & Hal & Hown & Hcl & _).
  - split; vm_compute; eexists; reflexivity.
  - vm_compute. reflexivity.
  - rewrite alignment_names_eq, !elem_of_cons. auto.
  - exists w', el'. auto.
Defined.

(** X14: the bundle's constructor never returns.  With a usable block
    class it throws a TypeError, at [this._element.classList] in [drawView]
    while [this._element] is not assigned yet; with an unusable one it throws
    what [classList.add] raises.  Either way the instance is left without its
    element. *)
Theorem Dist_constructor_never_returns (data config : obj) (a : Api)
    (os : gmap loc (gmap string value)) (es : gmap loc element) (rb : string → string) :
  ∃ (x : exn) (w : world),
    Dist.constructor data config a (World blank_instance os es rb) = (Throw x, w) ∧
    _element (this w) = None ∧
    (check_token (to_string (styles_block (styles a))) = None → x = TypeError) ∧
    (∀ y, check_token (to_string (styles_block (styles a))) = Some y → x = y).
Proof.
  unfold Dist.constructor, Dist.drawView, new_object, createElement,
    classList_add, set_contentEditable, set_dataset, addEventListener,
    get_element, put_element, lift_tokens, set_this,
    bind, gets, deref, ret, modify, throw.
  simpl. rewrite !lookup_insert_eq. simpl.
  unfold DOMTokenList_add. simpl.
  destruct (check_token (to_string (styles_block (styles a)))) as [y|]; simpl.
  - exists y. eexists. split; [reflexivity|]. split; [reflexivity|].
    split; [discriminate | intros ? [= ->]; reflexivity].
  - repeat (rewrite ?lookup_insert_eq, ?insert_insert_eq; simpl).
    exists TypeError. eexists. split; [reflexivity|]. split; [reflexivity|].
    split; [reflexivity | discriminate].
Qed.

(** ** What the constructor allocates and what it defaults *)

(** X16: with a usable block class the constructor returns with a record
    and an element at references that were not in use, and leaves every
    object and element the host already had as it was.  A [data.text] that is
    absent or falsy gives the text [""] and an empty element; a
    [config.placeholder] that is absent or falsy gives the placeholder [""];
    [config.preserveBlank] is kept as given unless it is absent or
    [undefined], which gives [false]. *)
Theorem constructor_frame_and_defaults (data config : obj) (a : Api)
    (os : gmap loc (gmap string value)) (es : gmap loc element) (rb : string → string) :
  check_token (to_string (styles_block (styles a))) = None →
  ∃ (w : world) (d e : loc),
    new_Paragraph data config a os es rb = (Normal tt, w) ∧
    _data (this w) = Some d ∧ _element (this w) = Some e ∧
    (d ∉ dom os) ∧ (e ∉ dom es) ∧
    (∀ l, l ∈ dom os → objs w !! l = os !! l) ∧
    (∀ l, l ∈ dom es → elems w !! l = es !! l) ∧
    (to_boolean (obj_get data "text") = false →
       stored "text" w = Some (VString "") ∧
       (innerHTML <$> owned_element w) = Some "") ∧
    (to_boolean (obj_get config "placeholder") = false →
       _placeholder (this w) = VString "") ∧
    (obj_get config "preserveBlank" = VUndefined → _preserveBlank (this w) = VBool false) ∧
    (obj_get config "preserveBlank" ≠ VUndefined →
       _preserveBlank (this w) = obj_get config "preserveBlank").
Proof.
  intros Hblk.
  pose proof (new_Paragraph_eq data config a os es rb Hblk) as Hnew.
  match type of Hnew with _ = (_, ?W) => set (w := W) in * end.
  pose proof (is_fresh (dom os)) as Hf0.
  pose proof (is_fresh (dom (<[fresh (dom os) := ∅]> os))) as Hf1.
  pose proof (is_fresh (dom es)) as Hfe.
  set (d0 := fresh (dom os)) in *.
  set (d1 := fresh (dom (<[d0 := ∅]> os))) in *.
  rewrite dom_insert_L, not_elem_of_union, not_elem_of_singleton in Hf1.
  destruct Hf1 as [Hne Hf1].
  exists w. eexists. eexists.
  split; [exact Hnew|]. split; [reflexivity|]. split; [reflexivity|].
  split; [exact Hf1|]. split; [exact Hfe|].
  split.
  { intros l Hl. simpl. rewrite !lookup_insert_ne by (intros <-; contradiction).
    reflexivity. }
  split.
  { intros l Hl. simpl. rewrite lookup_insert_ne by (intros <-; contradiction).
    reflexivity. }
  split.
  { intros Hfalse. destruct (alignment_stored_after_new _ _ _ _ _ _ _ Hnew Hblk) as [_ Ht].
    split.
    - rewrite Ht. unfold js_or. rewrite Hfalse. reflexivity.
    - unfold owned_element. simpl. rewrite lookup_insert_eq. simpl.
      unfold js_or at 2. rewrite Hfalse. reflexivity. }
  split.
  { intros Hfalse. simpl. unfold resolve_placeholder. rewrite Hfalse. reflexivity. }
  split.
  - intros Hu. simpl. unfold resolve_preserveBlank. rewrite Hu. reflexivity.
  - intros Hu. simpl. unfold resolve_preserveBlank, strict_ne, strict_eq.
    rewrite bool_decide_eq_false_2 by assumption. reflexivity.
Qed.

Lemma constructor_frame_and_defaults_witness :
  ∃ (w : world),
    new_Paragraph ∅ (<["preserveBlank" := VBool false]> ∅) test_api
      (objs example_world) (elems example_world) example_reads_back = (Normal tt, w) ∧
    stored "text" w = Some (VString "") ∧
    _placeholder (this w) = VString "" ∧
    _preserveBlank (this w) = VBool false ∧
    objs w !! 2%positive = objs example_world !! 2%positive.
Proof.
  destruct (constructor_frame_and_defaults ∅ (<["preserveBlank" := VBool false]> ∅) test_api
              (objs example_world) (elems example_world) example_reads_back)
    as (w & d & e & Hnew & _ & _ & _ & _ & Hos & _ & Htext & Hph & _ & Hpb).
  - vm_compute. reflexivity.
  - exists w. split; [exact Hnew|].
    split; [apply Htext; reflexivity|].
    split; [apply Hph; reflexivity|].
    split; [apply Hpb; vm_compute; discriminate|].
    apply Hos. apply elem_of_dom. vm_compute. eexists. reflexivity.
Defined.
